(** * merge_ows: a shallow embedding of [merge_ows.py]

    The script reads three vocabulary files, tags every word with a part
    of speech obtained from an external tagger, derives a note from a
    fixed list of substring rules, numbers the records and writes the
    concatenated list.

    Conventions of the embedding.
    - A Python [str] is a [string]: the bytes of its UTF-8 encoding.
      Equality, [in], [startswith] and the truth value of a text are those
      of Python on such strings.
    - [str.lower] is the builtin of Python.  It is not defined here: it is
      the method of the class [Py.StrLower], known through two facts that
      the Unicode lower-casing has on UTF-8 text.  [Py.ascii_lower], which
      folds the letters A to Z, is an instance and serves the examples.
    - [str.title] is applied to the tags of the tagger; it is modelled on
      the ASCII letters.
    - Python [int] is [Z].
    - The values that [json.load] returns are the terms of [json]; a
      [dict] is the list of its items in insertion order.
    - The tagger [nlp] (the spaCy pipeline loaded at module level) is a
      function from a text to its tokens; called on a value that is not a
      text, it raises.
    - An uncaught exception aborts the run: fallible code returns
      [option], and [None] stands for the exception. *)

From Stdlib Require Import ZArith List Bool Ascii String Lia.
From Stdlib Require Import Numbers.DecimalString Numbers.DecimalPos Numbers.DecimalZ.
Import ListNotations.

Open Scope string_scope.
Open Scope Z_scope.

(** ** Python string primitives *)

Module Py.

Definition is_upper (c : ascii) : bool :=
  let n := nat_of_ascii c in (Nat.leb 65 n && Nat.leb n 90)%bool.

Definition is_lower (c : ascii) : bool :=
  let n := nat_of_ascii c in (Nat.leb 97 n && Nat.leb n 122)%bool.

Definition is_cased (c : ascii) : bool := (is_upper c || is_lower c)%bool.

Definition lower_char (c : ascii) : ascii :=
  if is_upper c then ascii_of_nat (nat_of_ascii c + 32) else c.

Definition upper_char (c : ascii) : ascii :=
  if is_lower c then ascii_of_nat (nat_of_ascii c - 32) else c.

(** Lower-casing of the letters A to Z. *)
Fixpoint ascii_lower (s : string) : string :=
  match s with
  | EmptyString => EmptyString
  | String c s' => String (lower_char c) (ascii_lower s')
  end.

(** Every character of [s] passes [p]. *)
Fixpoint all_chars (p : ascii -> bool) (s : string) : bool :=
  match s with
  | EmptyString => true
  | String c s' => (p c && all_chars p s')%bool
  end.

(** [s.isascii()] *)
Definition is_ascii (s : string) : bool :=
  all_chars (fun c => Nat.ltb (nat_of_ascii c) 128) s.

(** [s.lower()].  On ASCII text it folds the letters A to Z and leaves the
    rest; whatever the text, no letter A to Z is left in the result. *)
Class StrLower : Type := {
  lower : string -> string;
  lower_ascii : forall s, is_ascii s = true -> lower s = ascii_lower s;
  lower_no_upper : forall s, all_chars (fun c => negb (is_upper c)) (lower s) = true
}.

(** [s.title()]: a character that follows a cased one is lower-cased,
    any other is upper-cased. *)
Fixpoint title_from (previous_is_cased : bool) (s : string) : string :=
  match s with
  | EmptyString => EmptyString
  | String c s' =>
      String (if previous_is_cased then lower_char c else upper_char c)
             (title_from (is_cased c) s')
  end.

Definition title (s : string) : string := title_from false s.

(** [s.startswith(p)] *)
Definition startswith (s p : string) : bool := String.prefix p s.

(** [needle in hay] *)
Fixpoint contains (needle hay : string) : bool :=
  (String.prefix needle hay ||
   match hay with
   | EmptyString => false
   | String _ hay' => contains needle hay'
   end)%bool.

(** [sep.join(parts)] *)
Fixpoint join (sep : string) (parts : list string) : string :=
  match parts with
  | [] => ""
  | [p] => p
  | p :: rest => p ++ sep ++ join sep rest
  end.

(** [str(n)] *)
Definition str (n : Z) : string := NilZero.string_of_int (Z.to_int n).

(** The number of bytes of the UTF-8 character that begins with [c]. *)
Definition utf8_width (c : ascii) : nat :=
  let n := nat_of_ascii c in
  if Nat.ltb n 192 then 1%nat
  else if Nat.ltb n 224 then 2%nat
  else if Nat.ltb n 240 then 3%nat
  else 4%nat.

(** The first [n] bytes of [s]. *)
Fixpoint take (n : nat) (s : string) : string :=
  match n, s with
  | S n', String c s' => String c (take n' s')
  | _, _ => EmptyString
  end.

(** [s[0]], the first character of a text; raises on the empty one. *)
Definition first_char (s : string) : option string :=
  match s with
  | EmptyString => None
  | String c _ => Some (take (utf8_width c) s)
  end.

End Py.

Notation "needle 'in?' hay" := (Py.contains needle hay)
  (at level 30, no associativity).

Notation "x <- e ;; k" := (match e with Some x => k | None => None end)
  (at level 61, e at next level, right associativity).

(** ** JSON values *)

(** A number of a JSON text as [json.load] returns it: an [int], or a
    [float] given by its sign, mantissa and binary exponent, an infinity
    or a NaN. *)
Inductive Number : Type :=
| Int (n : Z)
| Float (negative : bool) (mantissa : N) (exponent : Z)
| Infinity (negative : bool)
| NaN.

#[local] Set Warnings "-register-all".

(** The values of [json.load]: [None], [bool], number, [str], [list],
    [dict]. *)
Inductive json : Type :=
| JNull
| JBool (b : bool)
| JNum (n : Number)
| JStr (s : string)
| JList (items : list json)
| JDict (items : list (string * json)).

Coercion JStr : string >-> json.

(** The truth value of a value, as [if v] and [not v] take it. *)
Definition truthy (v : json) : bool :=
  match v with
  | JNull => false
  | JBool b => b
  | JNum (Int n) => negb (Z.eqb n 0)
  | JNum (Float _ m _) => negb (N.eqb m 0)
  | JNum (Infinity _) => true
  | JNum NaN => true
  | JStr s => negb (String.eqb s "")
  | JList items => match items with [] => false | _ :: _ => true end
  | JDict items => match items with [] => false | _ :: _ => true end
  end.

(** The value under [key] in the items of a [dict]. *)
Fixpoint lookup (items : list (string * json)) (key : string)
  : option json :=
  match items with
  | [] => None
  | (k, v) :: items' => if String.eqb k key then Some v else lookup items' key
  end.

(** [item.get(key, default)]: only a [dict] has the method. *)
Definition item_get (item : json) (key : string) (default : json)
  : option json :=
  match item with
  | JDict items =>
      Some (match lookup items key with
            | Some v => v
            | None => default
            end)
  | _ => None
  end.

(** [v[0]]: the first element of a list, the first character of a text.
    A [dict] read from JSON has no key [0]; the other values cannot be
    subscripted. *)
Definition subscript_0 (v : json) : option json :=
  match v with
  | JList (x :: _) => Some x
  | JStr s => s0 <- Py.first_char s ;; Some (JStr s0)
  | _ => None
  end.

(** [v.lower()]: only a text has the method. *)
Definition lower_of `{Py.StrLower} (v : json) : option string :=
  match v with
  | JStr s => Some (Py.lower s)
  | _ => None
  end.

(** ** The tagger interface *)

(** A spaCy token, with the three attributes the script reads. *)
Record Token : Type := mkToken {
  text : string;
  lemma_ : string;
  pos_ : string
}.

Definition Doc : Type := list Token.

(** [doc[0]]: raises on an empty document. *)
Definition first_token (doc : Doc) : option Token := hd_error doc.

(** The argument of [nlp(v)] as a text; the tagger raises on any other
    value. *)
Definition text_of (v : json) : option string :=
  match v with
  | JStr s => Some s
  | _ => None
  end.

(** ** POS resolver *)

Section Resolver.

Context {L : Py.StrLower}.
Variable nlp : string -> Doc.

(** The [for token in doc] loop of [get_pos]: the label of the first token
    that passes the test, if there is one. *)
Fixpoint scan_tokens (word target_lemma : string) (doc : Doc)
  : option string :=
  match doc with
  | [] => None
  | token :: doc' =>
      if (String.eqb (Py.lower (lemma_ token)) target_lemma
          || String.eqb (Py.lower (text token)) (Py.lower word))%bool
      then Some (pos_ token)
      else scan_tokens word target_lemma doc'
  end.

Definition get_pos (word sentence : json) : option string :=
  if negb (truthy sentence) then
    w <- text_of word ;;
    let doc := nlp w in
    t <- first_token doc ;;
    Some (pos_ t)
  else
    s <- text_of sentence ;;
    let doc := nlp s in
    w <- text_of word ;;
    t0 <- first_token (nlp w) ;;
    let target_lemma := Py.lower (lemma_ t0) in
    match scan_tokens w target_lemma doc with
    | Some p => Some p
    | None =>
        t <- first_token (nlp w) ;;
        Some (pos_ t)
    end.

End Resolver.

(** ** Note generator *)

Module Fragment.
Definition phobia := "Suffix '-phobia' denotes an extreme or irrational fear.".
Definition cide := "Suffix '-cide' refers to the act of killing (e.g., suicide, homicide).".
Definition cracy := "Suffixes like '-cracy' or '-archy' typically refer to forms of government or rule.".
Definition logy := "Suffix '-logy' usually means 'the study of'.".
Definition theos := "Root 'theos' refers to God.".
Definition vorous := "Suffix '-vorous' indicates feeding habits (e.g., carnivorous).".
Definition ambi := "Prefix 'ambi-' means 'both' or 'around'.".
Definition bene := "Prefix 'bene-' means 'good' or 'well'.".
Definition mal := "Prefix 'mal-' typically means 'bad' or 'evil'.".
Definition somnus := "Root 'somnus' relates to sleep.".
Definition bellum := "Root 'bellum' means war.".
Definition grex := "Root 'grex' or 'greg-' refers to a flock or herd.".
Definition greek := "This term has its roots in Greek mythology or language.".
Definition latin := "Derived from Latin.".
Definition medical := "Often used in medical contexts.".
Definition legal := "Frequently used in legal terminology.".
Definition egotist := "Don't confuse with 'egotist' (someone who talks excessively about themselves).".
Definition emigrant := "Compare with 'emigrant' (one who leaves a country).".
Definition immigrant := "Compare with 'immigrant' (one who enters a country).".
Definition stationery := "Not to be confused with 'stationery' (writing materials).".
Definition stationary := "Not to be confused with 'stationary' (not moving).".

(** The fragments in the order in which [generate_note] tests their rules. *)
Definition rule_order : list string :=
  [phobia; cide; cracy; logy; theos; vorous; ambi; bene; mal; somnus;
   bellum; grex; greek; latin; medical; legal; egotist; emigrant;
   immigrant; stationery; stationary].
End Fragment.

(** [if cond: note_parts.append(fragment)] *)
Definition append_if (cond : bool) (fragment : string)
  (note_parts : list string) : list string :=
  if cond then (note_parts ++ [fragment])%list else note_parts.

Section Notes.

Context {L : Py.StrLower}.

(** The value of [note_parts] when [generate_note] reaches its last
    statement. *)
Definition note_parts (word meaning origin : json) : option (list string) :=
  let note_parts := [] in
  word_lower <- lower_of word ;;
  meaning_lower <- lower_of meaning ;;
  origin_lower <- (if truthy origin then lower_of origin else Some "") ;;
  let note_parts := append_if ("phobia" in? word_lower) Fragment.phobia note_parts in
  let note_parts := append_if ("cide" in? word_lower) Fragment.cide note_parts in
  let note_parts := append_if ("cracy" in? word_lower || "arch" in? word_lower)
                              Fragment.cracy note_parts in
  let note_parts := append_if ("logy" in? word_lower) Fragment.logy note_parts in
  let note_parts := append_if ("theist" in? word_lower || "theism" in? word_lower)
                              Fragment.theos note_parts in
  let note_parts := append_if ("vorous" in? word_lower) Fragment.vorous note_parts in
  let note_parts := append_if ("ambi" in? word_lower) Fragment.ambi note_parts in
  let note_parts := append_if ("bene" in? word_lower) Fragment.bene note_parts in
  let note_parts := append_if ("mal" in? word_lower
                               && negb (Py.startswith word_lower "male"))
                              Fragment.mal note_parts in
  let note_parts := append_if ("somn" in? word_lower) Fragment.somnus note_parts in
  let note_parts := append_if ("bell" in? word_lower && "war" in? meaning_lower)
                              Fragment.bellum note_parts in
  let note_parts := append_if ("greg" in? word_lower) Fragment.grex note_parts in
  let note_parts :=
    if "Greek" in? origin_lower then (note_parts ++ [Fragment.greek])%list
    else if "Latin" in? origin_lower then (note_parts ++ [Fragment.latin])%list
    else note_parts in
  let note_parts := append_if ("med." in? meaning_lower
                               || "medicine" in? meaning_lower
                               || "disease" in? meaning_lower)
                              Fragment.medical note_parts in
  let note_parts := append_if ("law" in? meaning_lower || "legal" in? meaning_lower)
                              Fragment.legal note_parts in
  let note_parts := append_if (String.eqb word_lower "egoist")
                              Fragment.egotist note_parts in
  let note_parts := append_if (String.eqb word_lower "immigrant")
                              Fragment.emigrant note_parts in
  let note_parts := append_if (String.eqb word_lower "emigrant")
                              Fragment.immigrant note_parts in
  let note_parts := append_if ("stationary" in? word_lower)
                              Fragment.stationery note_parts in
  let note_parts := append_if ("stationery" in? word_lower)
                              Fragment.stationary note_parts in
  Some note_parts.

Definition generate_note (word meaning origin : json) : option string :=
  note_parts <- note_parts word meaning origin ;;
  match note_parts with
  | [] => Some ""
  | parts => Some (Py.join " " parts)
  end.

End Notes.

(** ** Data model *)

Record SourceInfo : Type := mkSourceInfo {
  pdfName : string;
  examYear : Z
}.

Record Properties : Type := mkProperties {
  difficulty : string;
  status : string
}.

(** The [content] block of an entry.  The five values taken from the
    record are passed on as they were read. *)
Record Content : Type := mkContent {
  content_id : Z;
  content_pos : string;
  content_word : json;
  content_meaning_en : json;
  content_meaning_hi : json;
  content_usage_sentences : json;
  content_note : string;
  content_origin : json
}.

Record OutputEntry : Type := mkOutputEntry {
  entry_id : string;
  sourceInfo : SourceInfo;
  properties : Properties;
  content : Content
}.

(** ** File processor *)

(** The [pos_map] dictionary of [process_file]. *)
Definition pos_map : list (string * string) :=
  [("NOUN", "Noun"); ("VERB", "Verb"); ("ADJ", "Adjective"); ("ADV", "Adverb");
   ("PROPN", "Proper Noun"); ("PRON", "Pronoun")].

(** [d.get(key, default)] on a dictionary given by its items. *)
Fixpoint dict_get (d : list (string * string)) (key default : string) : string :=
  match d with
  | [] => default
  | (k, v) :: d' => if String.eqb k key then v else dict_get d' key default
  end.

(** The flattening step of [process_file]: the value of [all_words] when
    the record loop starts. *)
Definition flatten (data : json) : list json :=
  let all_words := [] in
  match data with
  | JDict pages =>
      fold_left
        (fun all_words (entry : string * json) =>
           let '(page_num, items) := entry in
           match items with
           | JList items => (all_words ++ items)%list
           | _ => all_words
           end)
        pages all_words
  | JList items => items
  | _ => all_words
  end.

(** [usage_sentences[0] if usage_sentences else ""] *)
Definition first_sentence (usage_sentences : json) : option json :=
  if truthy usage_sentences then subscript_0 usage_sentences
  else Some (JStr "").

Section Pipeline.

Context {L : Py.StrLower}.
Variable nlp : string -> Doc.

(** One turn of the record loop, up to the construction of [new_item]. *)
Definition process_item (difficulty : string) (current_id : Z)
  (item : json) : option OutputEntry :=
  word <- item_get item "word" "" ;;
  meaning <- item_get item "meaning_en" "" ;;
  usage_sentences <- item_get item "usage_sentences" (JList []) ;;
  origin <- item_get item "origin" "" ;;
  first_sentence <- first_sentence usage_sentences ;;
  pos <- get_pos nlp word first_sentence ;;
  note <- generate_note word meaning origin ;;
  let pos := dict_get pos_map pos (Py.title pos) in
  meaning_hi <- item_get item "meaning_hi" "" ;;
  Some {| entry_id := Py.str current_id;
          sourceInfo := {| pdfName := "Blackbook"; examYear := 2025 |};
          properties := {| difficulty := difficulty; status := "Active" |};
          content := {| content_id := current_id;
                        content_pos := pos;
                        content_word := word;
                        content_meaning_en := meaning;
                        content_meaning_hi := meaning_hi;
                        content_usage_sentences := usage_sentences;
                        content_note := note;
                        content_origin := origin |} |}.

(** The record loop of [process_file], with its two loop variables. *)
Fixpoint process_items (difficulty : string) (all_words : list json)
  (processed_items : list OutputEntry) (current_id : Z)
  : option (list OutputEntry * Z) :=
  match all_words with
  | [] => Some (processed_items, current_id)
  | item :: rest =>
      new_item <- process_item difficulty current_id item ;;
      process_items difficulty rest
        (processed_items ++ [new_item])%list (current_id + 1)
  end.

(** The file system: the parsed JSON content of a path, [None] when the
    file cannot be opened or parsed. *)
Variable json_load : string -> option json.

Definition process_file (filepath difficulty : string) (start_id : Z)
  : option (list OutputEntry * Z) :=
  data <- json_load filepath ;;
  let processed_items := [] in
  let current_id := start_id in
  let all_words := flatten data in
  process_items difficulty all_words processed_items current_id.

Definition files_map : list (string * string) :=
  [("easy-ows.json", "Easy");
   ("moderate-ows.json", "Medium");
   ("hard-ows.json", "Hard")].

(** The file loop of [main], with its two loop variables. *)
Fixpoint main_loop (files : list (string * string))
  (final_data : list OutputEntry) (global_id_counter : Z)
  : option (list OutputEntry) :=
  match files with
  | [] => Some final_data
  | (filepath, difficulty) :: files' =>
      r <- process_file filepath difficulty global_id_counter ;;
      let '(items, next_id) := r in
      main_loop files' (final_data ++ items)%list next_id
  end.

(** [main], up to the list that it writes to [final_ows.json]. *)
Definition main : option (list OutputEntry) :=
  let final_data := [] in
  let global_id_counter := 1 in
  main_loop files_map final_data global_id_counter.

End Pipeline.

(** ** Console output and the output file *)

(** What a run does to [final_ows.json]: nothing; or it opens the file for
    writing, which empties it, and the dump raises on the way; or it dumps
    the whole list. *)
Inductive FileState : Type :=
| Untouched
| Truncated
| Dumped (data : list OutputEntry).

(** What a run leaves behind: the lines printed by [process_file] and
    [main], and the state of [final_ows.json]. *)
Record Outcome : Type := mkOutcome {
  stdout : list string;
  final_ows : FileState
}.

Section Console.

Context {L : Py.StrLower}.
Variable nlp : string -> Doc.
Variable json_load : string -> option json.

(** [open(output_file, 'w')] succeeds. *)
Variable open_ok : string -> bool.

(** [json.dump(final_data, f, ...)] returns and the file is closed
    without an error. *)
Variable dump_ok : list OutputEntry -> bool.

(** [process_file] with the line that it prints before it opens the
    file. *)
Definition process_file_io (filepath difficulty : string) (start_id : Z)
  : list string * option (list OutputEntry * Z) :=
  (["Processing " ++ filepath ++ "..."],
   process_file nlp json_load filepath difficulty start_id).

(** The file loop of [main] with the lines printed on the way. *)
Fixpoint main_loop_io (files : list (string * string))
  (final_data : list OutputEntry) (global_id_counter : Z)
  : list string * option (list OutputEntry) :=
  match files with
  | [] => ([], Some final_data)
  | (filepath, difficulty) :: files' =>
      let '(printed, r) :=
        process_file_io filepath difficulty global_id_counter in
      match r with
      | None => (printed, None)
      | Some (items, next_id) =>
          let '(printed', r') :=
            main_loop_io files' (final_data ++ items)%list next_id in
          ((printed ++ printed')%list, r')
      end
  end.

(** [main] with its prints and the write of the output file. *)
Definition main_io : Outcome :=
  let '(printed, r) := main_loop_io files_map [] 1 in
  match r with
  | None => {| stdout := printed; final_ows := Untouched |}
  | Some final_data =>
      let total :=
        "Total items processed: "
        ++ Py.str (Z.of_nat (List.length final_data)) in
      let output_file := "final_ows.json" in
      let wrote := "Successfully wrote to " ++ output_file in
      if open_ok output_file then
        if dump_ok final_data then
          {| stdout := (printed ++ [total; wrote])%list;
             final_ows := Dumped final_data |}
        else {| stdout := (printed ++ [total])%list; final_ows := Truncated |}
      else {| stdout := (printed ++ [total])%list; final_ows := Untouched |}
  end.

End Console.

(** * Vocabulary of the statements

    Definitions that the statements below are written with.  None of them
    is part of the script. *)

(** The ASCII lower-casing as an instance of [Py.StrLower]; the examples
    are run with it. *)
Definition ascii_str_lower : Py.StrLower.
Proof.
  refine {| Py.lower := Py.ascii_lower |}.
  - reflexivity.
  - induction s as [|c s IH]; [reflexivity|].
    cbn [Py.ascii_lower Py.all_chars]. rewrite IH, andb_true_r.
    destruct c as [[] [] [] [] [] [] [] []]; reflexivity.
Defined.

(** ** Vocabulary of the note generator *)

(** What a rule contributes to [note_parts]. *)
Definition fired (cond : bool) (fragment : string) : list string :=
  if cond then [fragment] else [].

(** What the [if]/[elif] on the origin contributes. *)
Definition origin_fired (greek latin : bool) : list string :=
  if greek then [Fragment.greek]
  else if latin then [Fragment.latin]
  else [].

(** What the rules contribute, one after the other, for a lower-cased
    word, meaning and origin. *)
Definition rule_parts (wl ml ol : string) : list string :=
  (fired ("phobia" in? wl) Fragment.phobia
   ++ fired ("cide" in? wl) Fragment.cide
   ++ fired ("cracy" in? wl || "arch" in? wl) Fragment.cracy
   ++ fired ("logy" in? wl) Fragment.logy
   ++ fired ("theist" in? wl || "theism" in? wl) Fragment.theos
   ++ fired ("vorous" in? wl) Fragment.vorous
   ++ fired ("ambi" in? wl) Fragment.ambi
   ++ fired ("bene" in? wl) Fragment.bene
   ++ fired ("mal" in? wl && negb (Py.startswith wl "male")) Fragment.mal
   ++ fired ("somn" in? wl) Fragment.somnus
   ++ fired ("bell" in? wl && "war" in? ml) Fragment.bellum
   ++ fired ("greg" in? wl) Fragment.grex
   ++ origin_fired ("Greek" in? ol) ("Latin" in? ol)
   ++ fired ("med." in? ml || "medicine" in? ml || "disease" in? ml)
            Fragment.medical
   ++ fired ("law" in? ml || "legal" in? ml) Fragment.legal
   ++ fired (String.eqb wl "egoist") Fragment.egotist
   ++ fired (String.eqb wl "immigrant") Fragment.emigrant
   ++ fired (String.eqb wl "emigrant") Fragment.immigrant
   ++ fired ("stationary" in? wl) Fragment.stationery
   ++ fired ("stationery" in? wl) Fragment.stationary)%list.

(** The lower-cased origin of [generate_note] for an origin that is a
    text. *)
Definition origin_lower `{Py.StrLower} (o : string) : string :=
  if truthy o then Py.lower o else "".

(** [xs] is [ys] with some elements left out, the others in place. *)
Inductive Subsequence {A : Type} : list A -> list A -> Prop :=
| sub_nil : Subsequence [] []
| sub_skip x xs ys : Subsequence xs ys -> Subsequence xs (x :: ys)
| sub_keep x xs ys : Subsequence xs ys -> Subsequence (x :: xs) (x :: ys).

(** The call of [generate_note] returns, and its rule that appends
    [fragment] fired. *)
Definition emits `{Py.StrLower} (fragment : string)
  (word meaning origin : json) : Prop :=
  exists parts,
    note_parts word meaning origin = Some parts /\ In fragment parts.

(** ** Vocabulary of the POS resolver *)

(** The test of the token scan, in the words of the specification: the
    token's base form equals the target's base form, or its surface text
    equals the target word, letter case disregarded. *)
Definition matches_target `{Py.StrLower} (w : string)
  (target token : Token) : Prop :=
  Py.lower (lemma_ token) = Py.lower (lemma_ target)
  \/ Py.lower (text token) = Py.lower w.

(** The label table, in the words of the specification: six coarse labels
    have a full name, any other label is title-cased. *)
Definition label_table (label : string) : string :=
  if String.eqb label "NOUN" then "Noun"
  else if String.eqb label "VERB" then "Verb"
  else if String.eqb label "ADJ" then "Adjective"
  else if String.eqb label "ADV" then "Adverb"
  else if String.eqb label "PROPN" then "Proper Noun"
  else if String.eqb label "PRON" then "Pronoun"
  else Py.title label.

(** The tagger returns at least one token for the text. *)
Definition taggable (nlp : string -> Doc) (w : string) : bool :=
  match nlp w with
  | [] => false
  | _ :: _ => true
  end.

(** A tagger for the examples: a lexicon of a few texts, one noun token
    for any other text, and no token for the empty text. *)
Definition lexicon_nlp (txt : string) : Doc :=
  if String.eqb txt "" then []
  else if String.eqb txt "running" then [mkToken "running" "run" "VERB"]
  else if String.eqb txt "I am running fast" then
    [mkToken "I" "I" "PRON"; mkToken "am" "be" "AUX";
     mkToken "running" "run" "VERB"; mkToken "fast" "fast" "ADV"]
  else if String.eqb txt "Runs in the family" then
    [mkToken "Runs" "run" "VERB"; mkToken "in" "in" "ADP";
     mkToken "the" "the" "DET"; mkToken "family" "family" "NOUN"]
  else if String.eqb txt "blue" then [mkToken "blue" "blue" "ADJ"]
  else if String.eqb txt "ambitious" then
    [mkToken "ambitious" "ambitious" "ADJ"]
  else [mkToken txt txt "NOUN"].

(** ** Vocabulary of the file processor *)

(** The value is a text. *)
Definition is_text (v : json) : bool :=
  match v with
  | JStr _ => true
  | _ => false
  end.

(** The value that [item.get(key, default)] returns for a record that is
    a [dict]. *)
Definition field (item : json) (key : string) (default : json) : json :=
  match item_get item key default with
  | Some v => v
  | None => default
  end.

(** The record can be processed: it is a [dict]; its word is a text for
    which the tagger has a token; its meaning is a text; its origin is a
    text or a value that counts as false; and its first usage sentence,
    when the usage sentences count as true, can be taken and is a text or
    counts as false. *)
Definition processable (nlp : string -> Doc) (item : json) : bool :=
  match item with
  | JDict _ =>
      match field item "word" "" with
      | JStr w => taggable nlp w
      | _ => false
      end
      && is_text (field item "meaning_en" "")
      && (negb (truthy (field item "origin" ""))
          || is_text (field item "origin" ""))
      && match first_sentence (field item "usage_sentences" (JList [])) with
         | Some s => negb (truthy s) || is_text s
         | None => false
         end
  | _ => false
  end.

(** The lists found under the keys of a page mapping, in the order of the
    keys; a value that is not a list contributes none. *)
Fixpoint lists_under (pages : list (string * json)) : list (list json) :=
  match pages with
  | [] => []
  | (_, JList items) :: pages' => items :: lists_under pages'
  | _ :: pages' => lists_under pages'
  end.

(** [n] consecutive integers from [start] on. *)
Fixpoint ids_from (start : Z) (n : nat) : list Z :=
  match n with
  | O => []
  | S n' => start :: ids_from (start + 1) n'
  end.

(** The entries that one file adds: one per record and in the order of the
    records, numbered from [start] on, all of one difficulty. *)
Record Batch (d : string) (start : Z) (records : list json)
  (entries : list OutputEntry) : Prop := mkBatch {
  batch_length : List.length entries = List.length records;
  batch_ids :
    map (fun e => content_id (content e)) entries
    = ids_from start (List.length records);
  batch_entry_ids :
    map entry_id entries = map Py.str (ids_from start (List.length records));
  batch_words :
    map (fun e => content_word (content e)) entries
    = map (fun item => field item "word" "") records;
  batch_difficulty :
    map (fun e => difficulty (properties e)) entries
    = repeat d (List.length records)
}.

Section PipelineVocabulary.

Context {L : Py.StrLower}.
Variable nlp : string -> Doc.

(** The entries of a list of records numbered from [id] on, without the
    accumulators of the loop. *)
Fixpoint number_records (d : string) (id : Z) (records : list json)
  : option (list OutputEntry) :=
  match records with
  | [] => Some []
  | item :: rest =>
      e <- process_item nlp d id item ;;
      es <- number_records d (id + 1) rest ;;
      Some (e :: es)
  end.

(** The entry [e] carries the values of the record [item], the defaults
    for the missing ones, and the two derived fields. *)
Definition carries (item : json) (e : OutputEntry) : Prop :=
  content_word (content e) = field item "word" ""
  /\ content_meaning_en (content e) = field item "meaning_en" ""
  /\ content_meaning_hi (content e) = field item "meaning_hi" ""
  /\ content_usage_sentences (content e)
     = field item "usage_sentences" (JList [])
  /\ content_origin (content e) = field item "origin" ""
  /\ generate_note (field item "word" "") (field item "meaning_en" "")
                   (field item "origin" "")
     = Some (content_note (content e))
  /\ (exists sentence label,
         first_sentence (field item "usage_sentences" (JList []))
         = Some sentence
         /\ get_pos nlp (field item "word" "") sentence = Some label
         /\ content_pos (content e) = label_table label)
  /\ sourceInfo e = {| pdfName := "Blackbook"; examYear := 2025 |}
  /\ status (properties e) = "Active"
  /\ entry_id e = Py.str (content_id (content e)).

End PipelineVocabulary.

(** The line that [process_file] prints for an entry of [files_map]. *)
Definition processing_line (file : string * string) : string :=
  "Processing " ++ fst file ++ "...".


(** ** Example inputs *)

Definition record (w meaning : string) (sentences : list string) : json :=
  JDict [("word", JStr w); ("meaning_en", JStr meaning);
         ("usage_sentences", JList (map JStr sentences))].

(** Three small files: a page mapping with a value that is not a list, a
    flat list, and a file that holds neither. *)
Definition example_load (filepath : string) : option json :=
  if String.eqb filepath "easy-ows.json" then
    Some (JDict
            [("1", JList [record "running" "moving fast" ["I am running fast"];
                          record "blue" "a colour" []]);
             ("note", JStr "second edition");
             ("2", JList [record "egoist" "a selfish person" [""]])])
  else if String.eqb filepath "moderate-ows.json" then
    Some (JList [record "malady" "a disease" []])
  else if String.eqb filepath "hard-ows.json" then
    Some JNull
  else None.


(** The single record of the end-to-end example. *)
Definition ambitious_record : json :=
  JDict [("word", JStr "ambitious");
         ("meaning_en", JStr "having strong desire");
         ("origin", JStr "Latin")].

(** [easy-ows.json] holds the record on its only page, the two other
    files hold no record. *)
Definition ambitious_load (filepath : string) : option json :=
  if String.eqb filepath "easy-ows.json" then
    Some (JDict [("1", JList [ambitious_record])])
  else Some (JDict []).

(** * Properties *)

(** ** Strings *)

Module PyFacts.
Import Py.

Lemma prefix_iff (p s : string) :
  String.prefix p s = true <-> exists post, s = p ++ post.
Proof.
  revert s; induction p as [|a p IH]; intros s; simpl.
  - destruct s; simpl; split; eauto.
  - destruct s as [|b s]; simpl.
    + split; [discriminate | intros [post E]; discriminate].
    + destruct (ascii_dec a b) as [->|Hab].
      * rewrite IH. split; intros [post E]; exists post; congruence.
      * split; [discriminate | intros [post E]; congruence].
Qed.

(** [needle in hay] is the substring relation. *)
Lemma contains_iff (needle hay : string) :
  contains needle hay = true <->
  exists pre post, hay = pre ++ needle ++ post.
Proof.
  induction hay as [|c hay IH].
  - cbn [contains]. rewrite orb_false_r, prefix_iff. split.
    + intros [post E]. exists "", post. exact E.
    + intros [[|c pre] [post E]]; [eauto | discriminate].
  - cbn [contains]. rewrite orb_true_iff, prefix_iff, IH. split.
    + intros [[post E] | (pre & post & E)].
      * exists "", post. exact E.
      * exists (String c pre), post. simpl. now rewrite E.
    + intros ([|c' pre] & post & E).
      * left. eauto.
      * right. exists pre, post. simpl in E. congruence.
Qed.

Lemma append_assoc (a b c : string) : (a ++ b) ++ c = a ++ b ++ c.
Proof. induction a; simpl; congruence. Qed.

Lemma append_empty_r (s : string) : s ++ "" = s.
Proof. induction s; simpl; congruence. Qed.

(** A part of a joined string is a substring of it. *)
Lemma join_contains (sep part : string) (parts : list string) :
  In part parts -> contains part (join sep parts) = true.
Proof.
  intros Hin. apply contains_iff.
  induction parts as [|p rest IH]; [destruct Hin|].
  destruct Hin as [->|Hin].
  - destruct rest as [|q rest].
    + exists "", "". simpl. now rewrite append_empty_r.
    + exists "", (sep ++ join sep (q :: rest)). reflexivity.
  - destruct rest as [|q rest]; [destruct Hin|].
    destruct (IH Hin) as (pre & post & E).
    exists (p ++ sep ++ pre), post.
    change (join sep (p :: q :: rest)) with (p ++ sep ++ join sep (q :: rest)).
    rewrite E. now rewrite !append_assoc.
Qed.

Lemma lower_char_not_upper (c : ascii) : is_upper (lower_char c) = false.
Proof. destruct c as [[] [] [] [] [] [] [] []]; reflexivity. Qed.

(** A needle that begins with a letter A to Z does not occur in a string
    that has none of them. *)
Lemma upper_not_in (a : ascii) (needle hay : string) :
  is_upper a = true ->
  all_chars (fun c => negb (is_upper c)) hay = true ->
  contains (String a needle) hay = false.
Proof.
  intros Ha. induction hay as [|c hay IH]; [reflexivity|].
  cbn [all_chars contains String.prefix]. rewrite andb_true_iff.
  intros [Hc Hhay]. rewrite (IH Hhay), orb_false_r.
  destruct (ascii_dec a c) as [->|]; [|reflexivity].
  rewrite Ha in Hc. discriminate Hc.
Qed.

(** Decimal printing separates the integers. *)
Lemma str_inj (n m : Z) : str n = str m -> n = m.
Proof.
  pose proof DecimalPos.Unsigned.to_uint_nonnil as nonnil.
  assert (parse : forall z,
             NilZero.int_of_string (str z) = Some (Z.to_int z)).
  { intros [|p|p]; [reflexivity| |]; unfold str; apply NilZero.isi;
      simpl; intros [= E]; exact (nonnil p E). }
  intros E. apply DecimalZ.to_int_inj.
  apply (f_equal NilZero.int_of_string) in E.
  rewrite !parse in E. congruence.
Qed.

Section Lower.

Context {L : StrLower}.

Lemma lower_empty : lower "" = "".
Proof. now rewrite lower_ascii. Qed.

(** A needle that begins with a letter A to Z never occurs in a
    lower-cased string. *)
Lemma upper_not_in_lower (a : ascii) (needle s : string) :
  is_upper a = true -> contains (String a needle) (lower s) = false.
Proof. intros Ha. apply upper_not_in; [exact Ha | apply lower_no_upper]. Qed.

End Lower.

End PyFacts.

(** ** Note generator *)

Section NoteFacts.

Import Py PyFacts.

Context {L : StrLower}.

Lemma append_if_fired (c : bool) (f : string) (l : list string) :
  append_if c f l = (l ++ fired c f)%list.
Proof. destruct c; simpl; [reflexivity | now rewrite app_nil_r]. Qed.

Lemma origin_step (a b : bool) (l : list string) :
  (if a then (l ++ [Fragment.greek])%list
   else if b then (l ++ [Fragment.latin])%list else l)
  = (l ++ origin_fired a b)%list.
Proof. destruct a, b; simpl; now rewrite ?app_nil_r. Qed.

(** The rules of [generate_note], one after the other. *)
Lemma note_parts_rules (word meaning origin : json) (wl ml ol : string) :
  lower_of word = Some wl ->
  lower_of meaning = Some ml ->
  (if truthy origin then lower_of origin else Some "") = Some ol ->
  note_parts word meaning origin = Some (rule_parts wl ml ol).
Proof.
  intros Hw Hm Ho. unfold note_parts. cbv zeta. rewrite Hw, Hm, Ho.
  rewrite !append_if_fired, origin_step.
  rewrite <- !app_assoc. reflexivity.
Qed.

(** A call that returns went through the rules. *)
Lemma note_parts_Some (word meaning origin : json) (parts : list string) :
  note_parts word meaning origin = Some parts ->
  exists wl ml ol,
    lower_of word = Some wl
    /\ lower_of meaning = Some ml
    /\ (if truthy origin then lower_of origin else Some "") = Some ol
    /\ parts = rule_parts wl ml ol.
Proof.
  intros H.
  destruct (lower_of word) as [wl|] eqn:Hw;
    [|unfold note_parts in H; rewrite Hw in H; discriminate H].
  destruct (lower_of meaning) as [ml|] eqn:Hm;
    [|unfold note_parts in H; rewrite Hw, Hm in H; discriminate H].
  destruct (if truthy origin then lower_of origin else Some "")
    as [ol|] eqn:Ho;
    [|unfold note_parts in H; rewrite Hw, Hm, Ho in H; discriminate H].
  rewrite (note_parts_rules _ _ _ _ _ _ Hw Hm Ho) in H.
  exists wl, ml, ol. repeat split. congruence.
Qed.

Lemma note_parts_text (w m o : string) :
  note_parts w m o
  = Some (rule_parts (lower w) (lower m) (origin_lower o)).
Proof.
  apply note_parts_rules; try reflexivity.
  unfold origin_lower. now destruct (truthy o).
Qed.

Lemma emits_text (f w m o : string) :
  emits f w m o
  <-> In f (rule_parts (lower w) (lower m) (origin_lower o)).
Proof.
  unfold emits. rewrite note_parts_text. split.
  - intros (parts & [= <-] & Hin). exact Hin.
  - intros Hin. eauto.
Qed.

Lemma in_fired (f g : string) (c : bool) :
  In f (fired c g) <-> c = true /\ g = f.
Proof. destruct c; simpl; intuition congruence. Qed.

Lemma in_origin_fired (f : string) (a b : bool) :
  In f (origin_fired a b) <->
  (a = true /\ Fragment.greek = f) \/
  (a = false /\ b = true /\ Fragment.latin = f).
Proof. destruct a, b; simpl; intuition congruence. Qed.

(** The lower-cased origin holds neither capitalised needle. *)
Lemma origin_lower_no_capital (origin : json) (ol : string) :
  (if truthy origin then lower_of origin else Some "") = Some ol ->
  "Greek" in? ol = false /\ "Latin" in? ol = false.
Proof.
  destruct (truthy origin).
  - destruct origin; try discriminate. intros [= <-].
    split; apply upper_not_in_lower; reflexivity.
  - intros [= <-]. split; reflexivity.
Qed.

Lemma Subsequence_fired {c : bool} {f : string} {xs ys : list string} :
  Subsequence xs ys -> Subsequence (fired c f ++ xs) (f :: ys).
Proof. destruct c; simpl; [apply sub_keep | apply sub_skip]. Qed.

Lemma Subsequence_origin_fired {a b : bool} {xs ys : list string} :
  Subsequence xs ys ->
  Subsequence (origin_fired a b ++ xs)
              (Fragment.greek :: Fragment.latin :: ys).
Proof.
  destruct a, b; simpl; intros H;
    auto using @sub_keep, @sub_skip.
Qed.

Lemma rule_parts_in_rule_order (wl ml ol : string) :
  Subsequence (rule_parts wl ml ol) Fragment.rule_order.
Proof.
  unfold rule_parts, Fragment.rule_order.
  repeat apply Subsequence_fired. apply Subsequence_origin_fired.
  repeat apply Subsequence_fired.
  match goal with |- Subsequence (fired ?c _) _ => destruct c end;
    simpl; [apply sub_keep | apply sub_skip]; apply sub_nil.
Qed.

Lemma note_parts_in_rule_order (word meaning origin : json)
  (parts : list string) :
  note_parts word meaning origin = Some parts ->
  Subsequence parts Fragment.rule_order.
Proof.
  intros H. destruct (note_parts_Some _ _ _ _ H) as (wl & ml & ol & _ & _ & _ & ->).
  apply rule_parts_in_rule_order.
Qed.

Lemma generate_note_join (word meaning origin : json) :
  generate_note word meaning origin
  = option_map (join " ") (note_parts word meaning origin).
Proof.
  unfold generate_note.
  destruct (note_parts word meaning origin) as [[|p parts]|]; reflexivity.
Qed.

Lemma emits_in_note (f : string) (word meaning origin : json) :
  emits f word meaning origin ->
  exists note,
    generate_note word meaning origin = Some note /\ f in? note = true.
Proof.
  intros (parts & Hp & Hin). rewrite generate_note_join, Hp.
  exists (join " " parts). split; [reflexivity | now apply join_contains].
Qed.

End NoteFacts.

(** On ASCII text the note is the one computed with [Py.ascii_lower]. *)
Lemma generate_note_ascii {L : Py.StrLower} (w m o : string) :
  Py.is_ascii w = true -> Py.is_ascii m = true -> Py.is_ascii o = true ->
  generate_note w m o = @generate_note ascii_str_lower w m o.
Proof.
  intros Hw Hm Ho. unfold generate_note.
  rewrite (@note_parts_text L), (@note_parts_text ascii_str_lower).
  unfold origin_lower.
  rewrite (Py.lower_ascii w Hw), (Py.lower_ascii m Hm), (Py.lower_ascii o Ho).
  reflexivity.
Qed.

(** Splits [In f (rule_parts _ _ _)] into the rules whose fragment is
    [f]. *)
Ltac rule_cases :=
  unfold rule_parts;
  rewrite !in_app_iff, in_origin_fired, !in_fired.

(** Closes a goal that has two different fragments equal. *)
Ltac absurd_fragment :=
  match goal with
  | H : ?g = ?f |- _ =>
      exfalso; exact (proj1 (String.eqb_neq g f) eq_refl H)
  end.

Ltac split_rules :=
  repeat match goal with
         | H : _ \/ _ |- _ => destruct H
         | H : _ /\ _ |- _ => destruct H
         end.
Section NoteClaims.

Import Py PyFacts.

Context {L : StrLower}.

Lemma origin_lower_casing (o1 o2 : string) :
  lower o1 = lower o2 -> origin_lower o1 = origin_lower o2.
Proof.
  intros Ho. unfold origin_lower.
  destruct o1 as [|c1 o1], o2 as [|c2 o2]; simpl; try reflexivity.
  - now rewrite <- Ho, lower_empty.
  - now rewrite Ho, lower_empty.
  - exact Ho.
Qed.

Lemma note_parts_casing (w1 m1 o1 w2 m2 o2 : string) :
  lower w1 = lower w2 -> lower m1 = lower m2 -> lower o1 = lower o2 ->
  note_parts w1 m1 o1 = note_parts w2 m2 o2.
Proof.
  intros Hw Hm Ho. rewrite !note_parts_text.
  now rewrite Hw, Hm, (origin_lower_casing o1 o2 Ho).
Qed.

(** C4.  The note is a function of the lower-cased word, meaning and
    origin alone: two calls whose arguments agree up to letter case return
    the same string.  That string is the fragments of the rules that fired,
    joined by single spaces, the fragments standing in the order of the
    rules with none moved or dropped; it is empty when no rule fired. *)
Theorem generate_note_deterministic (w1 m1 o1 w2 m2 o2 : string) :
  lower w1 = lower w2 -> lower m1 = lower m2 -> lower o1 = lower o2 ->
  generate_note w1 m1 o1 = generate_note w2 m2 o2
  /\ exists parts,
      note_parts w1 m1 o1 = Some parts
      /\ generate_note w1 m1 o1 = Some (join " " parts)
      /\ Subsequence parts Fragment.rule_order
      /\ (parts = [] -> generate_note w1 m1 o1 = Some "").
Proof.
  intros Hw Hm Ho. split.
  - unfold generate_note.
    now rewrite (note_parts_casing w1 m1 o1 w2 m2 o2 Hw Hm Ho).
  - exists (rule_parts (lower w1) (lower m1) (origin_lower o1)).
    rewrite generate_note_join, note_parts_text.
    split; [reflexivity|]. split; [reflexivity|].
    split; [apply rule_parts_in_rule_order|]. now intros ->.
Qed.

(** C2 (the code departs from it).  No call of the note generator emits the
    Greek-origin or the Latin-origin fragment: the needles ["Greek"] and
    ["Latin"] are capitalised and the origin they are looked up in has been
    lower-cased.  For the origins ["Greek"] and ["Greek/Latin hybrid"] the
    note is empty. *)
Theorem origin_rules_never_fire :
  (forall w m o : json,
      ~ emits Fragment.greek w m o /\ ~ emits Fragment.latin w m o)
  /\ generate_note "chaos" "complete disorder" "Greek" = Some ""
  /\ generate_note "television" "a device with a screen"
                   "Greek/Latin hybrid" = Some "".
Proof.
  split; [|split; rewrite generate_note_ascii; reflexivity].
  intros w m o.
  split; intros (parts & Hp & Hin);
    destruct (note_parts_Some _ _ _ _ Hp) as (wl & ml & ol & _ & _ & Ho & ->);
    destruct (origin_lower_no_capital o ol Ho) as [Hg Hl];
    revert Hin; rule_cases; rewrite Hg, Hl; intros H; split_rules;
    try discriminate; absurd_fragment.
Qed.

Lemma mal_condition (w m o : string) :
  emits Fragment.mal w m o <->
  "mal" in? lower w = true /\ startswith (lower w) "male" = false.
Proof.
  rewrite emits_text. rule_cases.
  rewrite andb_true_iff, negb_true_iff. split.
  - intros H; split_rules; try absurd_fragment; auto.
  - intros [H1 H2]. do 8 right. left. auto.
Qed.

(** C7.  The "bad/evil" fragment is emitted exactly when the lower-cased
    word has ["mal"] as a substring and does not start with ["male"]; it
    is then part of the note.  So a word that has ["male"] further in, and
    the word ["formal"], receive it. *)
Theorem mal_rule (w m o : string) :
  (emits Fragment.mal w m o <->
   "mal" in? lower w = true /\ startswith (lower w) "male" = false)
  /\ (emits Fragment.mal w m o ->
      exists note,
        generate_note w m o = Some note /\ Fragment.mal in? note = true)
  /\ ("male" in? lower w = true -> startswith (lower w) "male" = false ->
      emits Fragment.mal w m o)
  /\ emits Fragment.mal "formal" m o
  /\ emits Fragment.mal "Female" m o
  /\ ~ emits Fragment.mal "Male" m o.
Proof.
  split; [apply mal_condition|]. split; [apply emits_in_note|].
  split; [|split; [|split]].
  - intros Hmale Hstart. apply mal_condition. split; [|exact Hstart].
    apply contains_iff in Hmale. destruct Hmale as (pre & post & E).
    apply contains_iff. exists pre, ("e" ++ post). rewrite E. reflexivity.
  - apply mal_condition. rewrite lower_ascii by reflexivity.
    split; reflexivity.
  - apply mal_condition. rewrite lower_ascii by reflexivity.
    split; reflexivity.
  - rewrite mal_condition, lower_ascii by reflexivity.
    intros [_ H]. discriminate H.
Qed.

(** C9.  A word that is ["egoist"] once lower-cased gets the "egotist"
    fragment, ["immigrant"] the "emigrant" fragment and ["emigrant"] the
    "immigrant" fragment; a word that has ["stationary"] (["stationery"])
    as a substring once lower-cased gets the fragment that names the other
    spelling.  Each fragment is appended by its rule and is part of the
    note. *)
Theorem confusable_rules (w m o : string) :
  (lower w = "egoist" ->
   emits Fragment.egotist w m o
   /\ exists note,
       generate_note w m o = Some note
       /\ Fragment.egotist in? note = true)
  /\ (lower w = "immigrant" ->
      emits Fragment.emigrant w m o
      /\ exists note,
          generate_note w m o = Some note
          /\ Fragment.emigrant in? note = true)
  /\ (lower w = "emigrant" ->
      emits Fragment.immigrant w m o
      /\ exists note,
          generate_note w m o = Some note
          /\ Fragment.immigrant in? note = true)
  /\ ("stationary" in? lower w = true ->
      emits Fragment.stationery w m o
      /\ exists note,
          generate_note w m o = Some note
          /\ Fragment.stationery in? note = true)
  /\ ("stationery" in? lower w = true ->
      emits Fragment.stationary w m o
      /\ exists note,
          generate_note w m o = Some note
          /\ Fragment.stationary in? note = true).
Proof.
  assert (both : forall f, emits f w m o ->
            emits f w m o
            /\ exists note,
                generate_note w m o = Some note /\ f in? note = true)
    by (intros f H; split; [exact H | now apply emits_in_note]).
  split; [|split; [|split; [|split]]];
    intros H; apply both; rewrite emits_text; rule_cases; rewrite H.
  - do 15 right. left. split; reflexivity.
  - do 16 right. left. split; reflexivity.
  - do 17 right. left. split; reflexivity.
  - do 18 right. left. split; reflexivity.
  - do 19 right. split; reflexivity.
Qed.

End NoteClaims.

Section NoteExamples.

#[local] Existing Instance ascii_str_lower.

Lemma generate_note_deterministic_witness :
  generate_note "AMBIdextrous Malady" "A Disease; Legal WAR" "Latin"
  = generate_note "ambidextrous malady" "a disease; legal war" "LATIN"
  /\ generate_note "AMBIdextrous Malady" "A Disease; Legal WAR" "Latin"
     = Some "Prefix 'ambi-' means 'both' or 'around'. Prefix 'mal-' typically means 'bad' or 'evil'. Often used in medical contexts. Frequently used in legal terminology.".
Proof.
  destruct (generate_note_deterministic (L := ascii_str_lower)
              "AMBIdextrous Malady" "A Disease; Legal WAR" "Latin"
              "ambidextrous malady" "a disease; legal war" "LATIN"
              ltac:(reflexivity) ltac:(reflexivity) ltac:(reflexivity))
    as (Hsame & parts & _ & Hjoin & _).
  split; [exact Hsame | reflexivity].
Defined.

Lemma mal_rule_witness :
  emits Fragment.mal "Female" "of the sex that bears young" ""
  /\ exists note,
      generate_note "Female" "of the sex that bears young" "" = Some note
      /\ Fragment.mal in? note = true.
Proof.
  destruct (mal_rule "Female" "of the sex that bears young" "")
    as (Hrule & Hnote & _).
  assert (H : emits Fragment.mal "Female" "of the sex that bears young" "").
  { apply Hrule. split; reflexivity. }
  split; [exact H | exact (Hnote H)].
Defined.

Lemma confusable_rules_witness :
  (emits Fragment.egotist "Egoist" "a self-centred person" ""
   /\ emits Fragment.emigrant "IMMIGRANT" "" ""
   /\ emits Fragment.immigrant "emigrant" "" "")
  /\ ((exists note,
          generate_note "Stationary-bike" "" "" = Some note
          /\ Fragment.stationery in? note = true)
      /\ (exists note,
             generate_note "stationery" "" "" = Some note
             /\ Fragment.stationary in? note = true)).
Proof.
  pose proof (confusable_rules "Egoist" "a self-centred person" "") as (H1 & _).
  pose proof (confusable_rules "IMMIGRANT" "" "") as (_ & H2 & _).
  pose proof (confusable_rules "emigrant" "" "") as (_ & _ & H3 & _).
  pose proof (confusable_rules "Stationary-bike" "" "") as (_ & _ & _ & H4 & _).
  pose proof (confusable_rules "stationery" "" "") as (_ & _ & _ & _ & H5).
  split; [split; [|split]|split].
  - apply H1. reflexivity.
  - apply H2. reflexivity.
  - apply H3. reflexivity.
  - apply H4. reflexivity.
  - apply H5. reflexivity.
Defined.

End NoteExamples.

(** ** POS resolver *)

Section ResolverFacts.

Context {L : Py.StrLower}.
Variable nlp : string -> Doc.

Lemma truthy_text_false (s : string) : truthy s = false <-> s = "".
Proof.
  simpl. rewrite negb_false_iff. apply String.eqb_eq.
Qed.

(** The scan stops at the first token that passes the test. *)
Lemma scan_tokens_first (w : string) (target : Token) (doc : Doc) :
  (exists pre token post,
      doc = (pre ++ token :: post)%list
      /\ Forall (fun u => ~ matches_target w target u) pre
      /\ matches_target w target token
      /\ scan_tokens w (Py.lower (lemma_ target)) doc = Some (pos_ token))
  \/ (Forall (fun u => ~ matches_target w target u) doc
      /\ scan_tokens w (Py.lower (lemma_ target)) doc = None).
Proof.
  induction doc as [|u doc IH]; [right; split; [constructor | reflexivity]|].
  cbn [scan_tokens].
  destruct (String.eqb_spec (Py.lower (lemma_ u)) (Py.lower (lemma_ target)))
    as [El|El]; cbn [orb].
  { left. exists [], u, doc. repeat split; [constructor | now left]. }
  destruct (String.eqb_spec (Py.lower (text u)) (Py.lower w)) as [Et|Et].
  { left. exists [], u, doc. repeat split; [constructor | now right]. }
  assert (Hu : ~ matches_target w target u) by (intros [H|H]; contradiction).
  destruct IH as [(pre & token & post & E & Hpre & Htok & Hscan) | [Hall Hscan]].
  - left. exists (u :: pre), token, post. subst doc.
    repeat split; [constructor; assumption | assumption | assumption].
  - right. split; [constructor; assumption | assumption].
Qed.

Lemma scan_tokens_origin (w lemma : string) (doc : Doc) (label : string) :
  scan_tokens w lemma doc = Some label ->
  exists token, In token doc /\ pos_ token = label.
Proof.
  induction doc as [|u doc IH]; [discriminate|]. cbn [scan_tokens].
  destruct (_ || _)%bool.
  - intros [= <-]. exists u. split; [now left | reflexivity].
  - intros H. destruct (IH H) as (token & Hin & E).
    exists token. split; [now right | exact E].
Qed.

(** With a sentence that counts as false the word is tagged alone. *)
Lemma get_pos_no_sentence (word sentence : json) :
  truthy sentence = false ->
  get_pos nlp word sentence
  = (w <- text_of word ;; option_map pos_ (first_token (nlp w))).
Proof.
  intros Hs. unfold get_pos. rewrite Hs. simpl.
  destruct (text_of word) as [w|]; [|reflexivity].
  now destruct (first_token (nlp w)).
Qed.

(** When the resolver raises. *)
Lemma get_pos_None (word sentence : json) :
  get_pos nlp word sentence = None
  <-> (match word with JStr w => taggable nlp w | _ => false end
       && (negb (truthy sentence) || is_text sentence))%bool = false.
Proof.
  unfold get_pos, taggable, first_token.
  destruct (truthy sentence) eqn:Hs; cbn [negb orb].
  - destruct sentence; cbn [text_of is_text];
      try (rewrite andb_false_r; split; reflexivity).
    rewrite andb_true_r.
    destruct word; cbn [text_of]; try (split; reflexivity).
    destruct (nlp s0) as [|t0 rest]; cbn [hd_error];
      [split; reflexivity|].
    destruct (scan_tokens _ _ _); split; discriminate.
  - rewrite andb_true_r.
    destruct word; cbn [text_of]; try (split; reflexivity).
    destruct (nlp s) as [|t0 rest]; cbn [hd_error]; split;
      reflexivity || discriminate.
Qed.

(** On texts, the resolver fails exactly when the tagger has no token for
    the word. *)
Lemma get_pos_defined (w sentence : string) :
  taggable nlp w = true <-> exists label, get_pos nlp w sentence = Some label.
Proof.
  pose proof (get_pos_None w sentence) as H. cbn [is_text] in H.
  rewrite orb_true_r, andb_true_r in H.
  destruct (get_pos nlp w sentence) as [label|].
  - split; [eauto | intros _].
    destruct (taggable nlp w); [reflexivity|].
    now assert (F : Some label = None) by (apply H; reflexivity).
  - split; [|intros [label F]; discriminate F].
    intros Ht. assert (F : taggable nlp w = false) by (now apply H).
    congruence.
Qed.

Lemma label_table_pos_map (label : string) :
  dict_get pos_map label (Py.title label) = label_table label.
Proof.
  unfold label_table, pos_map, dict_get.
  now rewrite !(String.eqb_sym label).
Qed.

(** One turn of the record loop on a [dict], with the values that the
    [get] calls return. *)
Lemma process_item_dict (d : string) (id : Z) (fields : list (string * json)) :
  let item := JDict fields in
  process_item nlp d id item
  = (sentence <- first_sentence (field item "usage_sentences" (JList [])) ;;
     pos <- get_pos nlp (field item "word" "") sentence ;;
     note <- generate_note (field item "word" "")
               (field item "meaning_en" "") (field item "origin" "") ;;
     Some {| entry_id := Py.str id;
             sourceInfo := {| pdfName := "Blackbook"; examYear := 2025 |};
             properties := {| difficulty := d; status := "Active" |};
             content :=
               {| content_id := id;
                  content_pos := label_table pos;
                  content_word := field item "word" "";
                  content_meaning_en := field item "meaning_en" "";
                  content_meaning_hi := field item "meaning_hi" "";
                  content_usage_sentences :=
                    field item "usage_sentences" (JList []);
                  content_note := note;
                  content_origin := field item "origin" "" |} |}).
Proof.
  intros item. unfold process_item, field, item, item_get.
  destruct (first_sentence _) as [sentence|]; [|reflexivity].
  destruct (get_pos nlp _ sentence) as [pos|]; [|reflexivity].
  destruct (generate_note _ _ _) as [note|]; [|reflexivity].
  now rewrite label_table_pos_map.
Qed.

Lemma process_item_not_dict (d : string) (id : Z) (item : json) :
  (forall fields, item <> JDict fields) -> process_item nlp d id item = None.
Proof.
  intros H. destruct item; try reflexivity. now contradiction (H items).
Qed.

End ResolverFacts.

Section ResolverClaims.

Context {L : Py.StrLower}.
Variable nlp : string -> Doc.

(** C8 (the code departs from it).  When the tagger returns no token for
    the word tagged alone, as it does for the empty word that stands for a
    missing one, the resolver raises, whatever the context sentence is: it
    returns neither the label of a matching token of the sentence nor the
    label of the word tagged alone. *)
Theorem get_pos_raises_without_token (w : string) (sentence : json) :
  nlp w = [] -> get_pos nlp w sentence = None.
Proof.
  intros Hw. apply get_pos_None. unfold taggable. now rewrite Hw.
Qed.



(** X2.  A label returned by the resolver is the label of a token that the
    tagger produced: of a token of the (non-empty) sentence, or of the
    first token of the word tagged alone. *)
Theorem get_pos_label_from_tagger (w sentence label : string) :
  get_pos nlp w sentence = Some label ->
  (sentence <> "" /\ exists token,
      In token (nlp sentence) /\ pos_ token = label)
  \/ (exists target rest, nlp w = target :: rest /\ pos_ target = label).
Proof.
  unfold get_pos, first_token. cbn [text_of].
  destruct (nlp w) as [|t0 rest]; cbn [hd_error].
  - destruct (negb (truthy sentence)); discriminate.
  - destruct (truthy sentence) eqn:Ht; cbn [negb].
    + destruct (scan_tokens _ _ _) as [p|] eqn:Hs.
      * intros [= <-]. left. split.
        -- intros ->. discriminate Ht.
        -- eapply scan_tokens_origin; eauto.
      * intros [= <-]. right. eauto.
    + intros [= <-]. right. eauto.
Qed.

(** X3.  A context sentence that is the word itself gives the answer of the
    word tagged alone: the first token of the sentence has the target's
    lemma and ends the scan. *)
Theorem get_pos_sentence_is_word (w : string) :
  get_pos nlp w w = get_pos nlp w "".
Proof.
  rewrite (get_pos_no_sentence nlp w "") by reflexivity.
  unfold get_pos, first_token. cbn [text_of].
  destruct (truthy w); cbn [negb]; [|now destruct (nlp w)].
  destruct (nlp w) as [|t0 rest]; [reflexivity|]. simpl.
  now rewrite String.eqb_refl.
Qed.

(** X17.  When the tagger has a token for the word and a token of the
    non-empty sentence has the word as its text, letter case disregarded,
    the resolver answers with the label of a token of the sentence, the
    first one that passes the test: it does not fall back to the word
    tagged alone. *)
Theorem get_pos_uses_context (w sentence : string)
  (target : Token) (rest : Doc) (occurrence : Token) :
  nlp w = target :: rest ->
  sentence <> "" ->
  In occurrence (nlp sentence) ->
  Py.lower (text occurrence) = Py.lower w ->
  exists pre token post,
    nlp sentence = (pre ++ token :: post)%list
    /\ Forall (fun u => ~ matches_target w target u) pre
    /\ matches_target w target token
    /\ get_pos nlp w sentence = Some (pos_ token).
Proof.
  intros Hw Hs Hin Htext. unfold get_pos. cbn [text_of].
  destruct (truthy sentence) eqn:Ht;
    [|now apply truthy_text_false in Ht].
  rewrite Hw. simpl.
  destruct (scan_tokens_first w target (nlp sentence))
    as [(pre & token & post & E & Hpre & Htok & Hscan) | [Hall _]].
  - rewrite Hscan. exists pre, token, post. auto.
  - exfalso. rewrite Forall_forall in Hall.
    apply (Hall occurrence Hin). now right.
Qed.

(** X18.  Let the tagger return [target] as the first token of the word
    tagged alone.  Without a context sentence the resolver returns the label
    of [target].  With one, it tags the sentence and returns the label of
    the first token, from the left, whose lower-cased lemma is the
    lower-cased lemma of [target] or whose lower-cased text is the
    lower-cased word; when no token of the sentence passes, it returns the
    label of [target].  The label that reaches the output entry is the
    resolver's label sent through the table NOUN, VERB, ADJ, ADV, PROPN,
    PRON, and title-cased when it is not in the table. *)
Theorem get_pos_resolves (w sentence : string) (target : Token) (rest : Doc) :
  nlp w = target :: rest ->
  (sentence = "" -> get_pos nlp w sentence = Some (pos_ target))
  /\ (sentence <> "" ->
      (exists pre token post,
          nlp sentence = (pre ++ token :: post)%list
          /\ Forall (fun u => ~ matches_target w target u) pre
          /\ matches_target w target token
          /\ get_pos nlp w sentence = Some (pos_ token))
      \/ (Forall (fun u => ~ matches_target w target u) (nlp sentence)
          /\ get_pos nlp w sentence = Some (pos_ target)))
  /\ (forall d id fields e,
         field (JDict fields) "word" "" = JStr w ->
         first_sentence (field (JDict fields) "usage_sentences" (JList []))
         = Some (JStr sentence) ->
         process_item nlp d id (JDict fields) = Some e ->
         exists label,
           get_pos nlp w sentence = Some label
           /\ content_pos (content e) = label_table label).
Proof.
  intros Hw. split; [|split].
  - intros ->. rewrite get_pos_no_sentence by reflexivity.
    cbn [text_of]. now rewrite Hw.
  - intros Hs. unfold get_pos. cbn [text_of].
    destruct (truthy sentence) eqn:Ht;
      [|now apply truthy_text_false in Ht].
    rewrite Hw. simpl.
    destruct (scan_tokens_first w target (nlp sentence))
      as [(pre & token & post & E & Hpre & Htok & Hscan) | [Hall Hscan]];
      rewrite Hscan.
    + left. exists pre, token, post. auto.
    + right. auto.
  - intros d id fields e Ew Es. rewrite process_item_dict. cbv zeta.
    rewrite Ew, Es.
    destruct (get_pos nlp w sentence) as [label|]; [|discriminate].
    destruct (generate_note _ _ _); [|discriminate].
    intros [= <-]. exists label. split; reflexivity.
Qed.

End ResolverClaims.

Section ResolverExamples.

#[local] Existing Instance ascii_str_lower.

Lemma get_pos_raises_without_token_witness :
  get_pos lexicon_nlp "" "I am running fast" = None
  /\ get_pos lexicon_nlp "" "" = None.
Proof.
  split; apply get_pos_raises_without_token; reflexivity.
Defined.


Lemma get_pos_label_from_tagger_witness :
  (exists token,
      In token (lexicon_nlp "Runs in the family") /\ pos_ token = "VERB")
  \/ (exists target rest,
         lexicon_nlp "RUNS" = target :: rest /\ pos_ target = "VERB").
Proof.
  destruct (get_pos_label_from_tagger (L := ascii_str_lower) lexicon_nlp
              "RUNS" "Runs in the family" "VERB" eq_refl)
    as [[_ H] | H]; [left | right]; exact H.
Defined.

Lemma get_pos_uses_context_witness :
  exists pre token post,
    lexicon_nlp "Runs in the family" = (pre ++ token :: post)%list
    /\ Forall (fun u => ~ matches_target "RUNS"
                           (mkToken "RUNS" "RUNS" "NOUN") u) pre
    /\ matches_target "RUNS" (mkToken "RUNS" "RUNS" "NOUN") token
    /\ get_pos lexicon_nlp "RUNS" "Runs in the family" = Some (pos_ token).
Proof.
  apply (get_pos_uses_context (L := ascii_str_lower) lexicon_nlp
           "RUNS" "Runs in the family"
           (mkToken "RUNS" "RUNS" "NOUN") []
           (mkToken "Runs" "run" "VERB")).
  - reflexivity.
  - discriminate.
  - simpl. auto.
  - reflexivity.
Defined.

Lemma get_pos_resolves_witness :
  get_pos lexicon_nlp "blue" "" = Some "ADJ"
  /\ get_pos lexicon_nlp "running" "I am running fast" = Some "VERB"
  /\ exists e,
      process_item lexicon_nlp "Easy" 1
        (record "running" "moving fast" ["I am running fast"]) = Some e
      /\ content_pos (content e) = "Verb".
Proof.
  split; [|split].
  - exact (proj1 (get_pos_resolves (L := ascii_str_lower) lexicon_nlp
                    "blue" "" (mkToken "blue" "blue" "ADJ") [] eq_refl)
                 eq_refl).
  - reflexivity.
  - destruct (process_item lexicon_nlp "Easy" 1
                (record "running" "moving fast" ["I am running fast"]))
      as [e|] eqn:He; [|vm_compute in He; discriminate He].
    exists e. split; [reflexivity|].
    destruct (get_pos_resolves (L := ascii_str_lower) lexicon_nlp
                "running" "I am running fast"
                (mkToken "running" "run" "VERB") [] eq_refl)
      as (_ & _ & Hlabel).
    unfold record in He. cbn [map] in He.
    edestruct Hlabel as (label & Hl & Hc); [ | | exact He | ].
    1, 2: reflexivity.
    rewrite Hc. vm_compute in Hl. injection Hl as <-. reflexivity.
Defined.

(** The resolver on the sentences of the lexicon: the first match wins,
    by lemma or by text, and the word alone is the fallback. *)
Example get_pos_running :
  get_pos lexicon_nlp "running" "I am running fast" = Some "VERB"
  /\ get_pos lexicon_nlp "RUNS" "Runs in the family" = Some "VERB"
  /\ get_pos lexicon_nlp "blue" "I am running fast" = Some "ADJ"
  /\ get_pos lexicon_nlp "blue" JNull = Some "ADJ"
  /\ get_pos lexicon_nlp "blue" (JNum (Int 3)) = None
  /\ get_pos lexicon_nlp JNull "" = None
  /\ get_pos lexicon_nlp "" "I am running fast" = None.
Proof. repeat split. Qed.

Example label_table_examples :
  label_table "VERB" = "Verb" /\ label_table "PROPN" = "Proper Noun"
  /\ label_table "ADP" = "Adp" /\ label_table "SCONJ" = "Sconj".
Proof. repeat split. Qed.

End ResolverExamples.

(** ** Identifiers *)

Section Numbering.

Lemma ids_from_app (start : Z) (n m : nat) :
  ids_from start (n + m)
  = (ids_from start n ++ ids_from (start + Z.of_nat n) m)%list.
Proof.
  revert start. induction n as [|n IH]; intros start.
  - simpl. now rewrite Z.add_0_r.
  - cbn [Nat.add ids_from app]. rewrite IH. do 3 f_equal. lia.
Qed.

Lemma ids_from_in (start k : Z) (n : nat) :
  In k (ids_from start n) <-> start <= k < start + Z.of_nat n.
Proof.
  revert start. induction n as [|n IH]; intros start.
  - simpl. lia.
  - cbn [ids_from In]. rewrite IH. lia.
Qed.

Lemma ids_from_nth (start : Z) (n i : nat) :
  (i < n)%nat -> nth_error (ids_from start n) i = Some (start + Z.of_nat i).
Proof.
  revert start i. induction n as [|n IH]; intros start [|i] Hi; try lia.
  - simpl. f_equal. lia.
  - cbn [ids_from nth_error]. rewrite IH by lia. f_equal. lia.
Qed.

Lemma ids_from_NoDup (start : Z) (n : nat) : NoDup (ids_from start n).
Proof.
  revert start. induction n as [|n IH]; intros start; constructor.
  - rewrite ids_from_in. lia.
  - apply IH.
Qed.

Lemma str_ids_NoDup (start : Z) (n : nat) :
  NoDup (map Py.str (ids_from start n)).
Proof.
  induction (ids_from_NoDup start n) as [|k ks Hk _ IH]; simpl; constructor.
  - rewrite in_map_iff. intros (k' & E & Hin).
    apply PyFacts.str_inj in E. now subst k'.
  - exact IH.
Qed.

Lemma Batch_nil (d : string) (start : Z) : Batch d start [] [].
Proof. constructor; reflexivity. Qed.

Lemma Batch_cons (d : string) (start : Z) (item : json)
  (e : OutputEntry) (records : list json) (entries : list OutputEntry) :
  entry_id e = Py.str start ->
  content_id (content e) = start ->
  content_word (content e) = field item "word" "" ->
  difficulty (properties e) = d ->
  Batch d (start + 1) records entries ->
  Batch d start (item :: records) (e :: entries).
Proof.
  intros Hid Hcid Hw Hd [Hlen Hids Heids Hwords Hdiff].
  constructor; simpl; congruence.
Qed.

End Numbering.

(** ** The record loop and the file loop *)

Section PipelineFacts.

Context {L : Py.StrLower}.
Variable nlp : string -> Doc.

(** When the note generator raises. *)
Lemma generate_note_None (word meaning origin : json) :
  generate_note word meaning origin = None
  <-> (is_text word && is_text meaning
       && (negb (truthy origin) || is_text origin))%bool = false.
Proof.
  rewrite generate_note_join.
  destruct word as [| | |w| |]; try (split; reflexivity).
  destruct meaning as [| | |m| |]; try (split; reflexivity).
  cbn [is_text andb].
  destruct (truthy origin) eqn:Ht; cbn [negb orb].
  - destruct origin as [| | |o| |];
      try (unfold note_parts; cbn [lower_of]; rewrite Ht;
           split; reflexivity).
    rewrite note_parts_text. split; discriminate.
  - erewrite note_parts_rules;
      [split; discriminate | reflexivity | reflexivity | now rewrite Ht].
Qed.

(** A record gives an entry exactly when it can be processed. *)
Lemma process_item_None (d : string) (id : Z) (item : json) :
  process_item nlp d id item = None <-> processable nlp item = false.
Proof.
  destruct item as [| | | | |fields]; try (split; reflexivity).
  rewrite process_item_dict. cbv zeta. unfold processable.
  set (item := JDict fields).
  destruct (first_sentence (field item "usage_sentences" (JList [])))
    as [s|]; [|rewrite andb_false_r; split; reflexivity].
  pose proof (get_pos_None nlp (field item "word" "") s) as Hg.
  pose proof (generate_note_None (field item "word" "")
                (field item "meaning_en" "") (field item "origin" "")) as Hn.
  destruct (get_pos nlp (field item "word" "") s) as [pos|].
  - destruct (generate_note _ _ _) as [note|].
    + split; [discriminate|]. intros F. exfalso.
      destruct (field item "word" "") as [| | |w| |];
        try (now assert (X : Some pos = None) by (apply Hg; reflexivity)).
      cbn [is_text andb] in Hn.
      destruct (taggable nlp w); cbn [andb] in *;
        [|now assert (X : Some pos = None) by (apply Hg; reflexivity)].
      destruct (is_text (field item "meaning_en" "")); cbn [andb] in *;
        [|now assert (X : Some note = None) by (apply Hn; reflexivity)].
      destruct (negb (truthy (field item "origin" ""))
                || is_text (field item "origin" ""))%bool; cbn [andb] in *;
        [|now assert (X : Some note = None) by (apply Hn; reflexivity)].
      assert (X : Some pos = None) by (apply Hg; exact F). discriminate X.
    + split; [intros _ | reflexivity].
      assert (N : (is_text (field item "word" "")
                   && is_text (field item "meaning_en" "")
                   && (negb (truthy (field item "origin" ""))
                       || is_text (field item "origin" "")))%bool = false)
        by (now apply Hn).
      destruct (field item "word" "") as [| | |w| |]; try reflexivity.
      cbn [is_text andb] in N.
      destruct (is_text (field item "meaning_en" "")); cbn [andb] in *;
        [|now rewrite andb_false_r].
      rewrite N. now rewrite andb_false_r.
  - split; [intros _ | reflexivity].
    assert (N : (match field item "word" "" with
                 | JStr w => taggable nlp w
                 | _ => false
                 end && (negb (truthy s) || is_text s))%bool = false)
      by (now apply Hg).
    destruct (match field item "word" "" with
              | JStr w => taggable nlp w
              | _ => false
              end); [|reflexivity].
    cbn [andb] in N. rewrite N. now rewrite andb_false_r.
Qed.

Lemma process_item_defined (d : string) (id : Z) (item : json) :
  processable nlp item = true ->
  exists e, process_item nlp d id item = Some e.
Proof.
  intros Hp. destruct (process_item nlp d id item) as [e|] eqn:He; [eauto|].
  apply process_item_None in He. congruence.
Qed.

Lemma process_item_carries (d : string) (id : Z) (item : json)
  (e : OutputEntry) :
  process_item nlp d id item = Some e ->
  carries nlp item e
  /\ entry_id e = Py.str id
  /\ content_id (content e) = id
  /\ difficulty (properties e) = d.
Proof.
  destruct item as [| | | | |fields]; try discriminate.
  rewrite process_item_dict. cbv zeta. unfold carries.
  set (item := JDict fields).
  destruct (first_sentence _) as [s|]; [|discriminate].
  destruct (get_pos nlp _ s) as [pos|] eqn:Hg; [|discriminate].
  destruct (generate_note _ _ _) as [note|]; [|discriminate].
  intros [= <-]. cbn. repeat split.
  exists s, pos. repeat split. exact Hg.
Qed.

Lemma process_item_fields (d : string) (id : Z) (item : json)
  (e : OutputEntry) :
  process_item nlp d id item = Some e ->
  entry_id e = Py.str id
  /\ content_id (content e) = id
  /\ content_word (content e) = field item "word" ""
  /\ difficulty (properties e) = d.
Proof.
  intros He. destruct (process_item_carries d id item e He)
    as ((Hw & _) & Hid & Hc & Hd). auto.
Qed.

(** The record loop either numbers every record, or stops at a record
    that cannot be processed. *)
Lemma process_items_batch (d : string) (all_words : list json) :
  forall (processed_items : list OutputEntry) (current_id : Z),
    match process_items nlp d all_words processed_items current_id with
    | Some (items, next_id) =>
        exists entries,
          items = (processed_items ++ entries)%list
          /\ next_id = current_id + Z.of_nat (List.length all_words)
          /\ Batch d current_id all_words entries
    | None =>
        exists item,
          In item all_words /\ processable nlp item = false
    end.
Proof.
  induction all_words as [|item rest IH]; intros acc id.
  - simpl. exists []. rewrite app_nil_r, Z.add_0_r.
    auto using Batch_nil.
  - cbn [process_items].
    destruct (process_item nlp d id item) as [e|] eqn:He.
    + specialize (IH (acc ++ [e])%list (id + 1)).
      destruct (process_items nlp d rest _ _) as [[items next_id]|].
      * destruct IH as (entries & -> & -> & HB).
        exists (e :: entries). rewrite <- app_assoc.
        split; [reflexivity|]. split; [cbn [List.length]; lia|].
        destruct (process_item_fields _ _ _ _ He) as (H1 & H2 & H3 & H4).
        now apply Batch_cons.
      * destruct IH as (bad & Hin & Hbad). exists bad. split; [now right|auto].
    + exists item. split; [now left | now apply (process_item_None d id)].
Qed.

Variable json_load : string -> option json.

(** C1.  With the three files readable, a run that does not abort returns
    one entry per flattened record: the length of the output is the sum of
    the three flattened lengths [n], the numeric ids are 1, 2, ..., [n] in
    the order easy, moderate, hard, the string ids are their decimal forms
    and pairwise different.  A run aborts only on a record that cannot be
    processed. *)
Theorem main_ids (easy moderate hard : json) :
  json_load "easy-ows.json" = Some easy ->
  json_load "moderate-ows.json" = Some moderate ->
  json_load "hard-ows.json" = Some hard ->
  let records := (flatten easy ++ flatten moderate ++ flatten hard)%list in
  let n := (List.length (flatten easy) + List.length (flatten moderate)
            + List.length (flatten hard))%nat in
  match main nlp json_load with
  | Some out =>
      List.length out = n
      /\ map (fun e => content_id (content e)) out = ids_from 1 n
      /\ map entry_id out = map Py.str (ids_from 1 n)
      /\ NoDup (map entry_id out)
      /\ (forall i e, nth_error out i = Some e ->
                      content_id (content e) = 1 + Z.of_nat i)
      /\ map (fun e => content_word (content e)) out
         = map (fun item => field item "word" "") records
      /\ map (fun e => difficulty (properties e)) out
         = (repeat "Easy" (List.length (flatten easy))
            ++ repeat "Medium" (List.length (flatten moderate))
            ++ repeat "Hard" (List.length (flatten hard)))%list
  | None =>
      exists item, In item records /\ processable nlp item = false
  end.
Proof.
  intros He Hm Hh records n.
  unfold main, files_map. cbn [main_loop]. unfold process_file.
  rewrite He, Hm, Hh.
  pose proof (process_items_batch "Easy" (flatten easy) [] 1) as H1.
  destruct (process_items nlp "Easy" _ _ _) as [[items1 id1]|];
    [|destruct H1 as (bad & Hin & Hbad); exists bad; split;
      [unfold records; rewrite in_app_iff; auto | exact Hbad]].
  destruct H1 as (e1 & -> & -> & B1).
  pose proof (process_items_batch "Medium" (flatten moderate) []
                (1 + Z.of_nat (List.length (flatten easy)))) as H2.
  destruct (process_items nlp "Medium" _ _ _) as [[items2 id2]|];
    [|destruct H2 as (bad & Hin & Hbad); exists bad; split;
      [unfold records; rewrite !in_app_iff; auto | exact Hbad]].
  destruct H2 as (e2 & -> & -> & B2).
  pose proof (process_items_batch "Hard" (flatten hard) []
                (1 + Z.of_nat (List.length (flatten easy))
                 + Z.of_nat (List.length (flatten moderate)))) as H3.
  destruct (process_items nlp "Hard" _ _ _) as [[items3 id3]|];
    [|destruct H3 as (bad & Hin & Hbad); exists bad; split;
      [unfold records; rewrite !in_app_iff; auto | exact Hbad]].
  destruct H3 as (e3 & -> & -> & B3).
  cbn [app].
  destruct B1 as [L1 I1 E1 W1 D1], B2 as [L2 I2 E2 W2 D2],
           B3 as [L3 I3 E3 W3 D3].
  assert (Hids : map (fun e => content_id (content e)) ((e1 ++ e2) ++ e3)
                 = ids_from 1 n).
  { unfold n. rewrite !map_app, !ids_from_app, I1, I2, I3.
    now rewrite Nat2Z.inj_add, Z.add_assoc. }
  assert (Hlen : List.length ((e1 ++ e2) ++ e3) = n).
  { unfold n. rewrite !List.length_app. congruence. }
  split; [exact Hlen|]. split; [exact Hids|].
  assert (Heids : map entry_id ((e1 ++ e2) ++ e3) = map Py.str (ids_from 1 n)).
  { unfold n. rewrite !map_app, !ids_from_app, !map_app, E1, E2, E3.
    now rewrite Nat2Z.inj_add, Z.add_assoc. }
  split; [exact Heids|].
  split; [rewrite Heids; apply str_ids_NoDup|].
  split.
  { intros i e Hnth.
    assert (Hi : (i < n)%nat)
      by (rewrite <- Hlen; apply nth_error_Some; congruence).
    apply (map_nth_error (fun e => content_id (content e))) in Hnth.
    rewrite Hids, ids_from_nth in Hnth by exact Hi. congruence. }
  split.
  - unfold records. rewrite !map_app, W1, W2, W3, app_assoc. reflexivity.
  - rewrite !map_app, D1, D2, D3, app_assoc. reflexivity.
Qed.

(** C5 (the code departs from it).  A record without [word] is given the
    empty word; the tagger has no token for the empty text, so the resolver
    raises and the record gets no entry, whatever its other fields are. *)
Theorem missing_word_raises (d : string) (id : Z)
  (fields : list (string * json)) :
  nlp "" = [] ->
  lookup fields "word" = None ->
  field (JDict fields) "word" "" = JStr ""
  /\ process_item nlp d id (JDict fields) = None.
Proof.
  intros Hn Hw.
  assert (E : field (JDict fields) "word" "" = JStr "")
    by (unfold field, item_get; now rewrite Hw).
  split; [exact E|].
  apply process_item_None. unfold processable. rewrite E.
  unfold taggable. now rewrite Hn.
Qed.

(** The sibling default: a record without [meaning_en] that can be
    processed gets its entry, with the empty meaning. *)
Lemma missing_meaning_defaults (d : string) (id : Z)
  (fields : list (string * json)) :
  lookup fields "meaning_en" = None ->
  processable nlp (JDict fields) = true ->
  exists e,
    process_item nlp d id (JDict fields) = Some e
    /\ content_meaning_en (content e) = JStr "".
Proof.
  intros Hm Hp. destruct (process_item_defined d id _ Hp) as [e He].
  exists e. split; [exact He|].
  destruct (process_item_carries d id _ e He) as ((_ & -> & _) & _).
  unfold field, item_get. now rewrite Hm.
Qed.

End PipelineFacts.

(** ** Flattening *)

Lemma flatten_pages_from (pages : list (string * json))
  (all_words : list json) :
  fold_left
    (fun all_words (entry : string * json) =>
       let '(page_num, items) := entry in
       match items with
       | JList items => (all_words ++ items)%list
       | _ => all_words
       end)
    pages all_words
  = (all_words ++ List.concat (lists_under pages))%list.
Proof.
  revert all_words.
  induction pages as [|[page_num value] pages IH]; intros all_words.
  - simpl. now rewrite app_nil_r.
  - destruct value; cbn [fold_left lists_under List.concat];
      rewrite IH; try reflexivity.
    now rewrite app_assoc.
Qed.

(** C6.  Flattening a mapping concatenates the lists under its keys in the
    order of the keys, so that [{"1": [a, b], "2": [c]}] gives [a, b, c];
    flattening a list returns it; anything else flattens to the empty
    list. *)
Theorem flatten_cases :
  (forall pages, flatten (JDict pages) = List.concat (lists_under pages))
  /\ (forall items, flatten (JList items) = items)
  /\ (forall data,
         (forall pages, data <> JDict pages) ->
         (forall items, data <> JList items) ->
         flatten data = [])
  /\ (forall a b c,
         flatten (JDict [("1", JList [a; b]); ("2", JList [c])])
         = [a; b; c]
         /\ flatten (JList [a; b; c]) = [a; b; c]).
Proof.
  split; [|split; [reflexivity|split; [|repeat split]]].
  - intros pages. unfold flatten. now rewrite flatten_pages_from.
  - intros data Hd Hl. destruct data; try reflexivity.
    + now contradiction (Hl items).
    + now contradiction (Hd items).
Qed.

(** ** Runs on concrete files *)

(** C3 (the code departs from it).  On the end-to-end example the output
    has one entry, with id ["1"] and difficulty ["Easy"], and its note is
    the "ambi-" fragment alone: the Latin-origin fragment is not part of
    it.  (The run aborts if the tagger has no token for the word.) *)
Theorem ambitious_note_lacks_latin {L : Py.StrLower} (nlp : string -> Doc) :
  match main nlp ambitious_load with
  | Some [e] =>
      entry_id e = "1"
      /\ content_id (content e) = 1
      /\ difficulty (properties e) = "Easy"
      /\ content_note (content e) = Fragment.ambi
      /\ Fragment.ambi in? content_note (content e) = true
      /\ Fragment.latin in? content_note (content e) = false
  | Some _ => False
  | None => nlp "ambitious" = []
  end.
Proof.
  unfold main, files_map. cbn [main_loop]. unfold process_file.
  cbn [ambitious_load String.eqb Ascii.eqb Bool.eqb].
  cbn [flatten fold_left app process_items].
  unfold ambitious_record. rewrite process_item_dict. cbv zeta.
  change (field _ "word" "") with (JStr "ambitious").
  change (field _ "meaning_en" "") with (JStr "having strong desire").
  change (field _ "origin" "") with (JStr "Latin").
  change (first_sentence (field _ "usage_sentences" (JList [])))
    with (Some (JStr "")).
  cbv beta iota.
  rewrite get_pos_no_sentence by reflexivity. cbn [text_of].
  rewrite generate_note_ascii by reflexivity.
  change (@generate_note ascii_str_lower "ambitious" "having strong desire"
            "Latin") with (Some Fragment.ambi).
  destruct (nlp "ambitious") as [|t0 rest]; [reflexivity|].
  cbn [first_token hd_error option_map app].
  repeat split.
Qed.

Section RunExamples.

#[local] Existing Instance ascii_str_lower.

Lemma main_ids_witness :
  exists out,
    main lexicon_nlp example_load = Some out
    /\ List.length out = 4%nat
    /\ map entry_id out = ["1"; "2"; "3"; "4"]
    /\ map (fun e => difficulty (properties e)) out
       = ["Easy"; "Easy"; "Easy"; "Medium"].
Proof.
  pose proof (main_ids (L := ascii_str_lower) lexicon_nlp example_load _ _ _
                eq_refl eq_refl eq_refl) as H.
  cbv zeta in H.
  destruct (main lexicon_nlp example_load) as [out|] eqn:E.
  - exists out. destruct H as (Hlen & _ & Hid & _ & _ & _ & Hd).
    split; [reflexivity|]. split; [exact Hlen|]. split; [exact Hid | exact Hd].
  - vm_compute in E. discriminate E.
Defined.

Lemma missing_word_raises_witness :
  process_item lexicon_nlp "Easy" 1
    (JDict [("meaning_en", JStr "having strong desire")])
  = None.
Proof.
  exact (proj2 (missing_word_raises (L := ascii_str_lower) lexicon_nlp
                  "Easy" 1 [("meaning_en", JStr "having strong desire")]
                  eq_refl eq_refl)).
Defined.

Example ambitious_run :
  option_map (map (fun e => (entry_id e, content_pos (content e),
                             content_note (content e))))
             (main lexicon_nlp ambitious_load)
  = Some [("1", "Adjective", "Prefix 'ambi-' means 'both' or 'around'.")].
Proof. reflexivity. Qed.

(** Records that raise: a null meaning, a number for a word, a record
    that is a text, usage sentences that cannot be subscripted; and
    records that pass with values that are not texts. *)
Example ill_typed_records :
  process_item lexicon_nlp "Easy" 1
    (JDict [("word", JStr "blue"); ("meaning_en", JNull)]) = None
  /\ process_item lexicon_nlp "Easy" 1
       (JDict [("word", JNum (Int 7)); ("meaning_en", JStr "seven")]) = None
  /\ process_item lexicon_nlp "Easy" 1 (JStr "blue") = None
  /\ process_item lexicon_nlp "Easy" 1
       (JDict [("word", JStr "blue"); ("usage_sentences", JBool true)]) = None
  /\ option_map (fun e => content_pos (content e))
       (process_item lexicon_nlp "Easy" 1
          (JDict [("word", JStr "blue"); ("usage_sentences", JNull);
                  ("origin", JNull)])) = Some "Adjective"
  /\ option_map (fun e => content_pos (content e))
       (process_item lexicon_nlp "Easy" 1
          (JDict [("word", JStr "blue");
                  ("usage_sentences", JList [JNull; JStr "x"])]))
     = Some "Adjective".
Proof. repeat split. Qed.

End RunExamples.

(** * Further properties of the script *)

(** ** [generate_note] *)

Section NoteMore.

Import Py PyFacts.

Context {L : StrLower}.

Lemma Subsequence_In {A : Type} (xs ys : list A) (x : A) :
  Subsequence xs ys -> In x xs -> In x ys.
Proof.
  induction 1 as [|y xs ys _ IH|y xs ys _ IH]; simpl; intuition.
Qed.

Lemma Subsequence_NoDup {A : Type} (xs ys : list A) :
  Subsequence xs ys -> NoDup ys -> NoDup xs.
Proof.
  induction 1 as [|y xs ys _ IH|y xs ys Hs IH]; intros Hnd.
  - constructor.
  - inversion Hnd; auto.
  - inversion Hnd as [|? ? Hy Hys]; subst. constructor; [|auto].
    intros Hin. apply Hy. eapply Subsequence_In; eauto.
Qed.

Lemma rule_order_NoDup : NoDup Fragment.rule_order.
Proof.
  unfold Fragment.rule_order.
  repeat (constructor;
          [simpl; intros H; split_rules; try absurd_fragment; assumption|]).
  constructor.
Qed.

Lemma rule_order_nonempty (f : string) :
  In f Fragment.rule_order -> exists c rest, f = String c rest.
Proof.
  unfold Fragment.rule_order. simpl. intros H.
  split_rules; try contradiction; subst f; eexists _, _; reflexivity.
Qed.

(** X4.  The origin has no influence on the note: two calls that differ in
    the origin alone return the same string. *)
Theorem note_ignores_origin (w m o o' : string) :
  generate_note w m o = generate_note w m o'.
Proof.
  unfold generate_note.
  assert (E : forall x : string,
             note_parts w m x = Some (rule_parts (lower w) (lower m) "")).
  { intros x. rewrite note_parts_text.
    destruct (origin_lower_no_capital x (origin_lower x)) as [Hg Hl].
    { unfold origin_lower. now destruct (truthy x). }
    unfold rule_parts. now rewrite Hg, Hl. }
  now rewrite (E o), (E o').
Qed.

(** X5.  The rules on the word's roots and on the meaning fire
    independently of one another: each of these fragments is emitted
    exactly when its own condition on the lower-cased word or meaning
    holds. *)
Theorem rule_conditions (w m o : string) :
  let wl := lower w in
  let ml := lower m in
  (emits Fragment.phobia w m o <-> "phobia" in? wl = true)
  /\ (emits Fragment.cide w m o <-> "cide" in? wl = true)
  /\ (emits Fragment.cracy w m o <->
      "cracy" in? wl = true \/ "arch" in? wl = true)
  /\ (emits Fragment.logy w m o <-> "logy" in? wl = true)
  /\ (emits Fragment.theos w m o <->
      "theist" in? wl = true \/ "theism" in? wl = true)
  /\ (emits Fragment.vorous w m o <-> "vorous" in? wl = true)
  /\ (emits Fragment.ambi w m o <-> "ambi" in? wl = true)
  /\ (emits Fragment.bene w m o <-> "bene" in? wl = true)
  /\ (emits Fragment.somnus w m o <-> "somn" in? wl = true)
  /\ (emits Fragment.bellum w m o <->
      "bell" in? wl = true /\ "war" in? ml = true)
  /\ (emits Fragment.grex w m o <-> "greg" in? wl = true)
  /\ (emits Fragment.medical w m o <->
      "med." in? ml = true \/ "medicine" in? ml = true
      \/ "disease" in? ml = true)
  /\ (emits Fragment.legal w m o <->
      "law" in? ml = true \/ "legal" in? ml = true).
Proof.
  intros wl ml.
  repeat match goal with |- _ /\ _ => split end;
    rewrite emits_text; rule_cases; fold wl ml;
    rewrite ?orb_true_iff, ?andb_true_iff;
    (split;
     [ intros H; split_rules; try absurd_fragment; tauto
     | intros H ]).
  - left. tauto.
  - right; left. tauto.
  - do 2 right; left. tauto.
  - do 3 right; left. tauto.
  - do 4 right; left. tauto.
  - do 5 right; left. tauto.
  - do 6 right; left. tauto.
  - do 7 right; left. tauto.
  - do 9 right; left. tauto.
  - do 10 right; left. tauto.
  - do 11 right; left. tauto.
  - do 13 right; left. tauto.
  - do 14 right; left. tauto.
Qed.

(** X6.  No fragment occurs twice in the parts of a note. *)
Theorem note_parts_NoDup (word meaning origin : json) :
  match note_parts word meaning origin with
  | Some parts => NoDup parts
  | None => True
  end.
Proof.
  destruct (note_parts word meaning origin) as [parts|] eqn:E; [|exact I].
  eapply Subsequence_NoDup;
    [eapply note_parts_in_rule_order; eauto | apply rule_order_NoDup].
Qed.

(** X7.  The note is the empty string exactly when no rule fired. *)
Theorem empty_note_iff (word meaning origin : json) :
  generate_note word meaning origin = Some ""
  <-> note_parts word meaning origin = Some [].
Proof.
  unfold generate_note.
  destruct (note_parts word meaning origin) as [[|p rest]|] eqn:E;
    try (split; reflexivity || discriminate).
  split; [|discriminate]. intros Hnote. exfalso.
  pose proof (note_parts_in_rule_order _ _ _ _ E) as Hsub.
  destruct (rule_order_nonempty p) as (c & p' & ->).
  { eapply Subsequence_In; [exact Hsub | now left]. }
  revert Hnote. destruct rest; simpl; discriminate.
Qed.

End NoteMore.

(** ** [process_file] and [main] *)

Section PipelineMore.

Import Py PyFacts.

Context {L : StrLower}.
Variable nlp : string -> Doc.

(** The record loop without its accumulators. *)
Lemma process_items_closed (d : string) (all_words : list json) :
  forall (processed_items : list OutputEntry) (current_id : Z),
    process_items nlp d all_words processed_items current_id
    = match number_records nlp d current_id all_words with
      | Some entries =>
          Some ((processed_items ++ entries)%list,
                current_id + Z.of_nat (List.length all_words))
      | None => None
      end.
Proof.
  induction all_words as [|item rest IH]; intros acc id.
  - simpl. now rewrite app_nil_r, Z.add_0_r.
  - cbn [process_items number_records].
    destruct (process_item nlp d id item) as [e|]; [|reflexivity].
    rewrite IH. destruct (number_records nlp d (id + 1) rest); [|reflexivity].
    rewrite <- app_assoc.
    change (List.length (item :: rest)) with (S (List.length rest)).
    rewrite Nat2Z.inj_succ. do 2 f_equal. lia.
Qed.


Lemma number_records_carries (d : string) (records : list json) :
  forall id entries,
    number_records nlp d id records = Some entries ->
    Forall2 (carries nlp) records entries /\ Batch d id records entries.
Proof.
  induction records as [|item rest IH]; intros id entries.
  - intros [= <-]. split; [constructor | apply Batch_nil].
  - cbn [number_records].
    destruct (process_item nlp d id item) as [e|] eqn:He; [|discriminate].
    destruct (number_records nlp d (id + 1) rest) as [es|] eqn:Hes;
      [|discriminate].
    intros [= <-]. destruct (IH _ _ Hes) as [HF HB]. split.
    + constructor; [eapply process_item_carries; eauto | exact HF].
    + destruct (process_item_fields _ _ _ _ _ He) as (H1 & H2 & H3 & H4).
      now apply Batch_cons.
Qed.


(** X8.  The record loop composes: running it over [ws1 ++ ws2] is running
    it over [ws1] and then over [ws2] from the list and the counter that
    the first run left; an abort in the first part aborts the whole. *)
Theorem process_items_app (d : string) (ws1 ws2 : list json) :
  forall (processed_items : list OutputEntry) (current_id : Z),
    process_items nlp d (ws1 ++ ws2) processed_items current_id
    = match process_items nlp d ws1 processed_items current_id with
      | Some (items, next_id) => process_items nlp d ws2 items next_id
      | None => None
      end.
Proof.
  induction ws1 as [|item ws1 IH]; intros acc id; [reflexivity|].
  cbn [app process_items].
  destruct (process_item nlp d id item) as [e|]; [apply IH | reflexivity].
Qed.

Variable json_load : string -> option json.


Lemma main_closed (easy moderate hard : json) :
  json_load "easy-ows.json" = Some easy ->
  json_load "moderate-ows.json" = Some moderate ->
  json_load "hard-ows.json" = Some hard ->
  main nlp json_load
  = (es1 <- number_records nlp "Easy" 1 (flatten easy) ;;
     es2 <- number_records nlp "Medium"
              (1 + Z.of_nat (List.length (flatten easy)))
              (flatten moderate) ;;
     es3 <- number_records nlp "Hard"
              (1 + Z.of_nat (List.length (flatten easy))
               + Z.of_nat (List.length (flatten moderate)))
              (flatten hard) ;;
     Some (es1 ++ es2 ++ es3)%list).
Proof.
  intros He Hm Hh. unfold main, files_map. cbn [main_loop].
  unfold process_file. rewrite He, Hm, Hh, !process_items_closed.
  destruct (number_records nlp "Easy" _ _) as [es1|]; [|reflexivity].
  rewrite !process_items_closed.
  destruct (number_records nlp "Medium" _ _) as [es2|]; [|reflexivity].
  rewrite !process_items_closed.
  destruct (number_records nlp "Hard" _ _) as [es3|]; [|reflexivity].
  cbn [app]. now rewrite <- app_assoc.
Qed.



(** X11.  No record is lost, added or altered between the files and the
    output: the entries of a run stand one to one, in the order easy,
    moderate, hard, for the flattened records, and each carries the values
    of its record (the defaults for missing ones), the note and mapped
    label computed from them, the constant source block and status, and a
    string id that is the decimal form of its numeric id. *)
Theorem main_entries_carry_records (easy moderate hard : json)
  (out : list OutputEntry) :
  json_load "easy-ows.json" = Some easy ->
  json_load "moderate-ows.json" = Some moderate ->
  json_load "hard-ows.json" = Some hard ->
  main nlp json_load = Some out ->
  Forall2 (carries nlp)
          (flatten easy ++ flatten moderate ++ flatten hard) out.
Proof.
  intros He Hm Hh. rewrite (main_closed easy moderate hard He Hm Hh).
  destruct (number_records nlp "Easy" _ _) as [es1|] eqn:H1; [|discriminate].
  destruct (number_records nlp "Medium" _ _) as [es2|] eqn:H2;
    [|discriminate].
  destruct (number_records nlp "Hard" _ _) as [es3|] eqn:H3; [|discriminate].
  intros [= <-].
  apply number_records_carries in H1, H2, H3.
  repeat apply Forall2_app; tauto.
Qed.

End PipelineMore.

(** ** Console output and the output file *)

Section ConsoleMore.

Import Py PyFacts.

Context {L : StrLower}.
Variable nlp : string -> Doc.
Variable json_load : string -> option json.
Variable open_ok : string -> bool.
Variable dump_ok : list OutputEntry -> bool.


(** The traced file loop returns what the file loop returns, and prints a
    line per file that it started on. *)
Lemma main_loop_io_spec (files : list (string * string)) :
  forall (final_data : list OutputEntry) (global_id_counter : Z),
    snd (main_loop_io nlp json_load files final_data global_id_counter)
    = main_loop nlp json_load files final_data global_id_counter
    /\ match main_loop nlp json_load files final_data global_id_counter with
       | Some _ =>
           fst (main_loop_io nlp json_load files final_data
                             global_id_counter)
           = map processing_line files
       | None =>
           exists done failing rest id,
             files = (done ++ failing :: rest)%list
             /\ fst (main_loop_io nlp json_load files final_data
                                  global_id_counter)
                = map processing_line (done ++ [failing])
             /\ process_file nlp json_load (fst failing) (snd failing) id
                = None
       end.
Proof.
  induction files as [|[filepath d] files IH]; intros acc id.
  - split; reflexivity.
  - cbn [main_loop_io main_loop]. unfold process_file_io.
    destruct (process_file nlp json_load filepath d id)
      as [[items next_id]|] eqn:Hp.
    + specialize (IH (acc ++ items)%list next_id).
      destruct (main_loop_io nlp json_load files _ _) as [printed' r'].
      cbn [fst snd] in IH |- *. destruct IH as [Hr Hlog].
      split; [exact Hr|].
      destruct (main_loop nlp json_load files _ _).
      * cbn [map app]. now rewrite Hlog.
      * destruct Hlog as (done & failing & rest & id' & -> & Hlog & Hf).
        exists ((filepath, d) :: done), failing, rest, id'.
        split; [reflexivity|]. split; [|exact Hf].
        cbn [map app]. now rewrite Hlog.
    + cbn [fst snd]. split; [reflexivity|].
      exists [], (filepath, d), files, id. repeat split. exact Hp.
Qed.

(** X12.  [final_ows.json] is not opened in a run in which the processing
    of a file raised.  When the three files are processed, the file is
    opened; it holds the whole list that [main] built if the dump returns,
    and is left emptied or partly written if the dump raises. *)
Theorem final_ows_written :
  final_ows (main_io nlp json_load open_ok dump_ok)
  = match main nlp json_load with
    | None => Untouched
    | Some data =>
        if open_ok "final_ows.json"
        then if dump_ok data then Dumped data else Truncated
        else Untouched
    end.
Proof.
  unfold main_io, main.
  destruct (main_loop_io_spec files_map [] 1) as [Hr _].
  destruct (main_loop_io nlp json_load files_map [] 1) as [printed r].
  cbn [snd] in Hr. rewrite <- Hr.
  destruct r as [data|]; [|reflexivity].
  destruct (open_ok "final_ows.json"); [|reflexivity].
  destruct (dump_ok data); reflexivity.
Qed.

(** X13.  A run whose three files are processed prints one line for each
    file in the order easy, moderate, hard, then the number of entries;
    the closing line follows only when the output file was opened and the
    dump returned. *)
Theorem stdout_on_success (out : list OutputEntry) :
  main nlp json_load = Some out ->
  stdout (main_io nlp json_load open_ok dump_ok)
  = (["Processing easy-ows.json...";
      "Processing moderate-ows.json...";
      "Processing hard-ows.json...";
      ("Total items processed: "
       ++ str (Z.of_nat (List.length out)))%string]
     ++ (if (open_ok "final_ows.json" && dump_ok out)%bool
         then ["Successfully wrote to final_ows.json"] else []))%list.
Proof.
  unfold main_io, main.
  destruct (main_loop_io_spec files_map [] 1) as [Hr Hlog].
  destruct (main_loop_io nlp json_load files_map [] 1) as [printed r].
  cbn [fst snd] in Hr, Hlog. rewrite <- Hr in Hlog |- *.
  intros ->. rewrite Hlog.
  destruct (open_ok "final_ows.json"); [|reflexivity].
  destruct (dump_ok out); reflexivity.
Qed.


End ConsoleMore.

(** ** The label of an entry *)

Section LabelMore.

Import Py PyFacts.

Lemma upper_char_cased (c : ascii) :
  is_upper (upper_char c) = true -> is_cased c = true.
Proof.
  destruct c as [[] [] [] [] [] [] [] []]; vm_compute; intros H;
    solve [reflexivity | discriminate H].
Qed.

(** A title-cased string never has two upper-case letters at its head. *)
Lemma title_head (s : string) (a b : ascii) (rest : string) :
  title s = String a (String b rest) ->
  is_upper a = true -> is_upper b = false.
Proof.
  destruct s as [|c0 [|c1 s]]; try discriminate.
  unfold title. cbn [title_from]. intros [= <- <- _] Ha.
  rewrite (upper_char_cased c0 Ha). apply lower_char_not_upper.
Qed.

(** X15.  The label written to an entry is never one of the six raw tags
    of the table: a tag of the table is replaced by its full name, and the
    title-cased form of any other label differs from all six. *)
Theorem pos_never_raw_tag {L : StrLower} (nlp : string -> Doc) (d : string)
  (id : Z) (item : json) (e : OutputEntry) :
  process_item nlp d id item = Some e ->
  ~ In (content_pos (content e)) (map fst pos_map).
Proof.
  intros He.
  destruct (process_item_carries nlp d id item e He)
    as ((_ & _ & _ & _ & _ & _ & (s & label & _ & _ & ->) & _) & _).
  unfold label_table.
  repeat match goal with
         | |- context [String.eqb label ?k] =>
             destruct (String.eqb label k);
             [simpl; intros H; split_rules; try discriminate; assumption|]
         end.
  simpl. intros H. split_rules; try contradiction;
    match goal with
    | H : _ = title label |- _ =>
        symmetry in H; apply title_head in H; [discriminate H | reflexivity]
    end.
Qed.

End LabelMore.

(** ** Flattening, once more *)

(** X16.  The flattened records of a page mapping are the records of its
    list-valued pages and no others: none is dropped and none is added,
    whatever the keys are. *)
Theorem flatten_dict_members (pages : list (string * json)) (item : json) :
  In item (flatten (JDict pages))
  <-> exists key items, In (key, JList items) pages /\ In item items.
Proof.
  unfold flatten. rewrite flatten_pages_from. cbn [app].
  induction pages as [|[key value] pages IH]; cbn [lists_under List.concat].
  - split; [intros [] | intros (k & l & [] & _)].
  - assert (skip :
      (forall items, value <> JList items) ->
      In item (List.concat (lists_under pages))
      <-> exists k l, In (k, JList l) ((key, value) :: pages) /\ In item l).
    { intros Hv. rewrite IH. split.
      - intros (k & l & Hp & Hin). exists k, l. split; [now right | exact Hin].
      - intros (k & l & [E | Hp] & Hin); [|eauto].
        injection E as _ E. now contradiction (Hv l). }
    destruct value as [| | | |items|]; try (apply skip; discriminate).
    cbn [List.concat]. rewrite in_app_iff, IH. split.
    + intros [Hin | (k & l & Hp & Hin)].
      * exists key, items. split; [now left | exact Hin].
      * exists k, l. split; [now right | exact Hin].
    + intros (k & l & [E | Hp] & Hin).
      * injection E as <- <-. now left.
      * right. eauto.
Qed.

(** ** Witnesses *)

Section MoreExamples.

#[local] Existing Instance ascii_str_lower.

Lemma main_entries_carry_records_witness :
  exists out,
    main lexicon_nlp example_load = Some out
    /\ Forall2 (carries lexicon_nlp)
         [record "running" "moving fast" ["I am running fast"];
          record "blue" "a colour" [];
          record "egoist" "a selfish person" [""];
          record "malady" "a disease" []]
         out.
Proof.
  destruct (main lexicon_nlp example_load) as [out|] eqn:E;
    [|vm_compute in E; discriminate E].
  exists out. split; [reflexivity|].
  exact (main_entries_carry_records (L := ascii_str_lower) lexicon_nlp
           example_load _ _ _ out eq_refl eq_refl eq_refl E).
Defined.

Lemma stdout_on_success_witness :
  stdout (main_io lexicon_nlp example_load (fun _ => true) (fun _ => true))
  = ["Processing easy-ows.json..."; "Processing moderate-ows.json...";
     "Processing hard-ows.json..."; "Total items processed: 4";
     "Successfully wrote to final_ows.json"]
  /\ stdout (main_io lexicon_nlp example_load (fun _ => true)
               (fun _ => false))
     = ["Processing easy-ows.json..."; "Processing moderate-ows.json...";
        "Processing hard-ows.json..."; "Total items processed: 4"].
Proof.
  destruct (main lexicon_nlp example_load) as [out|] eqn:E;
    [|vm_compute in E; discriminate E].
  rewrite !(stdout_on_success (L := ascii_str_lower) lexicon_nlp
              example_load _ _ out E).
  vm_compute in E. injection E as <-. split; reflexivity.
Defined.


Lemma pos_never_raw_tag_witness :
  exists e,
    process_item lexicon_nlp "Easy" 1
      (record "running" "moving fast" ["I am running fast"]) = Some e
    /\ ~ In (content_pos (content e)) (map fst pos_map).
Proof.
  destruct (process_item lexicon_nlp "Easy" 1
              (record "running" "moving fast" ["I am running fast"]))
    as [e|] eqn:E; [|vm_compute in E; discriminate E].
  exists e. split; [reflexivity|].
  exact (pos_never_raw_tag (L := ascii_str_lower) lexicon_nlp "Easy" 1 _ e E).
Defined.

End MoreExamples.
